(** * Entitlement, usage metering and digest scheduling of the voice-to-task bot

    A shallow embedding of [database.py], [server.py] and [bot.py]:
    the two SQL tables become lists of rows, every handler becomes a function
    from the store (and the outcome of the external calls it makes) to the new
    store and the messages it sends.

    Conventions.
    - The SQL column type REAL (Python [float]) is idealised as the exact
      rationals [Q]; the decisions below only add and compare.
    - Strings are sequences of bytes; text is kept as the source writes it,
      in UTF-8.
    - Instants are whole seconds since the Unix epoch. *)

From Stdlib Require Import ZArith QArith Lqa Ascii String.
From stdpp Require Import gmap strings list fin_maps.

Local Open Scope string_scope.
Local Open Scope Z_scope.

(** ** Python values *)

Module Py.

(** Python's truth protocol ([if x:], [x or y], [not x]). *)
Class Truthy (A : Type) := truthy : A -> bool.

#[global] Instance truthy_bool : Truthy bool := fun b => b.
#[global] Instance truthy_int : Truthy Z := fun n => negb (n =? 0).
#[global] Instance truthy_str : Truthy string :=
  fun s => match s with EmptyString => false | String _ _ => true end.
#[global] Instance truthy_list {A} : Truthy (list A) :=
  fun l => match l with [] => false | _ :: _ => true end.
(** [None] is falsy; any other value has its own truth value. *)
#[global] Instance truthy_option {A} `{Truthy A} : Truthy (option A) :=
  fun o => match o with None => false | Some a => truthy a end.

(** [str(x)] of a value that is a string or [None]. *)
Definition str (o : option string) : string :=
  match o with Some s => s | None => "None" end.

(** The line feed written ["\n"] in the source. *)
Definition LF : string := String (ascii_of_nat 10) EmptyString.

(** A scalar of a JSON document. *)
Inductive JVal :=
| JNull
| JBool (b : bool)
| JNum (n : Z)
| JStr (s : string).

(** [k in d] for a dict. *)
Definition contains (k : string) (d : gmap string JVal) : bool :=
  match d !! k with Some _ => true | None => false end.

(** The decimal digit [d] (0..9) as a character. *)
Definition digit (d : Z) : ascii := ascii_of_nat (48 + Z.to_nat d).

(** [n] in decimal on exactly [w] digits, zero padded ([%02d], [%04d]). *)
Fixpoint zfill (w : nat) (n : Z) : string :=
  match w with
  | O => ""
  | S w' => zfill w' (n / 10) ++ String (digit (n mod 10)) ""
  end.

(** [s[:n]], counted in bytes. *)
Fixpoint take_prefix (n : nat) (s : string) : string :=
  match n, s with
  | S n', String c s' => String c (take_prefix n' s')
  | _, _ => ""
  end.

End Py.

(** ** Calendar arithmetic of [datetime] *)

Module Datetime.

(** Days since 1970-01-01 to the proleptic Gregorian (year, month, day). *)
Definition civil_from_days (days : Z) : Z * Z * Z :=
  let z := days + 719468 in
  let era := z / 146097 in
  let doe := z - era * 146097 in
  let yoe := (doe - doe / 1460 + doe / 36524 - doe / 146096) / 365 in
  let doy := doe - (365 * yoe + yoe / 4 - yoe / 100) in
  let mp := (5 * doy + 2) / 153 in
  let d := doy - (153 * mp + 2) / 5 + 1 in
  let m := if mp <? 10 then mp + 3 else mp - 9 in
  let y := yoe + era * 400 + (if m <=? 2 then 1 else 0) in
  (y, m, d).

(** The inverse direction, used to write instants as calendar dates. *)
Definition days_from_civil (y m d : Z) : Z :=
  let y' := if m <=? 2 then y - 1 else y in
  let era := y' / 400 in
  let yoe := y' - era * 400 in
  let mp := if m <=? 2 then m + 9 else m - 3 in
  let doy := (153 * mp + 2) / 5 + d - 1 in
  let doe := yoe * 365 + yoe / 4 - yoe / 100 + doy in
  era * 146097 + doe - 719468.

(** The instant of a UTC wall-clock reading. *)
Definition utc_instant (y m d hh mm ss : Z) : Z :=
  days_from_civil y m d * 86400 + hh * 3600 + mm * 60 + ss.

(** [strftime("%H:%M")] of a wall-clock reading given in seconds. *)
Definition strftime_HM (wall : Z) : string :=
  let sod := wall mod 86400 in
  Py.zfill 2 (sod / 3600) ++ ":" ++ Py.zfill 2 (sod mod 3600 / 60).

(** [strftime('%Y-%m-%d')] of a wall-clock reading given in seconds. *)
Definition strftime_Ymd (wall : Z) : string :=
  let '(y, m, d) := civil_from_days (wall / 86400) in
  Py.zfill 4 y ++ "-" ++ Py.zfill 2 m ++ "-" ++ Py.zfill 2 d.

(** A time zone: its offset from UTC, in seconds, at each UTC instant. *)
Record tzinfo := { utcoffset : Z -> Z }.

(** [utc_now.astimezone(tz)] as a wall-clock reading. *)
Definition astimezone (tz : tzinfo) (utc_now : Z) : Z :=
  utc_now + utcoffset tz utc_now.

(** ** [strptime(s, "%H:%M")]

    CPython turns the format into the regular expression
    [(?P<H>2[0-3]|[0-1]\d|\d):(?P<M>[0-5]\d|\d)], matches it at the start of
    the string and raises [ValueError] when nothing matches or when
    unconverted data remains after the match. *)

Definition is_digit (c : ascii) : bool :=
  let n := nat_of_ascii c in (48 <=? n)%nat && (n <=? 57)%nat.

Definition in_range (lo hi : nat) (c : ascii) : bool :=
  let n := nat_of_ascii c in (lo <=? n)%nat && (n <=? hi)%nat.

Definition digit_val (c : ascii) : Z := Z.of_nat (nat_of_ascii c) - 48.

(** The alternatives of the hour group, in the order the matcher tries them;
    each returns the value read and the rest of the input. *)
Definition hour_alternatives (s : string) : list (Z * string) :=
  match s with
  | String a (String b r) =>
      (if Ascii.eqb a "2" && in_range 48 51 b
       then [(20 + digit_val b, r)] else [])
      ++ (if in_range 48 49 a && is_digit b
          then [(10 * digit_val a + digit_val b, r)] else [])
      ++ (if is_digit a then [(digit_val a, String b r)] else [])
  | String a r => if is_digit a then [(digit_val a, r)] else []
  | EmptyString => []
  end.

Definition minute_alternatives (s : string) : list (Z * string) :=
  match s with
  | String a (String b r) =>
      (if in_range 48 53 a && is_digit b
       then [(10 * digit_val a + digit_val b, r)] else [])
      ++ (if is_digit a then [(digit_val a, String b r)] else [])
  | String a r => if is_digit a then [(digit_val a, r)] else []
  | EmptyString => []
  end.

(** The first match of the whole expression, by backtracking. *)
Definition match_HM (s : string) : option (Z * Z * string) :=
  head
    (h ← hour_alternatives s;
     match h.2 with
     | String ":" r => (fun m => (h.1, m.1, m.2)) <$> minute_alternatives r
     | _ => []
     end).

(** [Some (hour, minute)] when [strptime] returns, [None] when it raises. *)
Definition strptime_HM (s : string) : option (Z * Z) :=
  match match_HM s with
  | Some (h, m, EmptyString) => Some (h, m)
  | _ => None
  end.

End Datetime.

(** ** database.py *)

Module Database.

(** A row of [users]. The columns [usage_count], [is_paid] and
    [last_reset_date] are never read or written after creation and are left
    out. *)
Record User := mkUser {
  user_id : string;
  stripe_customer_id : option string;
  minutes_used : Q;
  plan_tier : string;
  todoist_token : option string;
  notion_token : option string;
  notion_page_id : option string;
  digest_time : string;
  timezone : string
}.

(** A row of [tasks] ([created_at] is never read and is left out). *)
Record Task := mkTask {
  id : nat;
  task_user_id : string;
  task_content : string;
  is_digest_sent : bool
}.

(** The two tables, rows in insertion order, and the AUTOINCREMENT counter
    of [tasks.id] (the largest id handed out so far). *)
Record Db := mkDb {
  users : list User;
  tasks : list Task;
  tasks_seq : nat
}.

(** What a statement can raise through [get_db_cursor]: the driver's error,
    logged, rolled back and re-raised. There is no other error in the module. *)
Inductive DbError :=
| OperationalError.

Inductive Result (A : Type) :=
| Returned (a : A)
| Raised (e : DbError).
Arguments Returned {A} a.
Arguments Raised {A} e.

(** The keyword arguments [update_user] is called with, one per column. *)
Inductive Assignment :=
| set_stripe_customer_id (v : option string)
| set_minutes_used (v : Q)
| set_plan_tier (v : string)
| set_todoist_token (v : string)
| set_notion_token (v : string)
| set_notion_page_id (v : string)
| set_digest_time (v : string)
| set_timezone (v : string).

Definition assign (r : User) (a : Assignment) : User :=
  match a with
  | set_stripe_customer_id v =>
      mkUser (user_id r) v (minutes_used r) (plan_tier r) (todoist_token r)
        (notion_token r) (notion_page_id r) (digest_time r) (timezone r)
  | set_minutes_used v =>
      mkUser (user_id r) (stripe_customer_id r) v (plan_tier r)
        (todoist_token r) (notion_token r) (notion_page_id r) (digest_time r)
        (timezone r)
  | set_plan_tier v =>
      mkUser (user_id r) (stripe_customer_id r) (minutes_used r) v
        (todoist_token r) (notion_token r) (notion_page_id r) (digest_time r)
        (timezone r)
  | set_todoist_token v =>
      mkUser (user_id r) (stripe_customer_id r) (minutes_used r) (plan_tier r)
        (Some v) (notion_token r) (notion_page_id r) (digest_time r)
        (timezone r)
  | set_notion_token v =>
      mkUser (user_id r) (stripe_customer_id r) (minutes_used r) (plan_tier r)
        (todoist_token r) (Some v) (notion_page_id r) (digest_time r)
        (timezone r)
  | set_notion_page_id v =>
      mkUser (user_id r) (stripe_customer_id r) (minutes_used r) (plan_tier r)
        (todoist_token r) (notion_token r) (Some v) (digest_time r)
        (timezone r)
  | set_digest_time v =>
      mkUser (user_id r) (stripe_customer_id r) (minutes_used r) (plan_tier r)
        (todoist_token r) (notion_token r) (notion_page_id r) v (timezone r)
  | set_timezone v =>
      mkUser (user_id r) (stripe_customer_id r) (minutes_used r) (plan_tier r)
        (todoist_token r) (notion_token r) (notion_page_id r) (digest_time r) v
  end.

(** The row [check_user_status] inserts; the columns it does not name take
    the defaults of the schema. *)
Definition new_user (uid : string) : User :=
  mkUser uid None 0%Q "free" None None None "18:00" "UTC".

(** [SELECT * FROM users WHERE user_id = ?], [fetchone]. *)
Definition select_user (uid : string) (db : Db) : option User :=
  find (fun r => String.eqb (user_id r) uid) (users db).

(** Get or create: returns the row and the store after the call. *)
Definition check_user_status (uid : string) (db : Db) : User * Db :=
  match select_user uid db with
  | Some row => (row, db)
  | None =>
      (new_user uid, mkDb (users db ++ [new_user uid]) (tasks db) (tasks_seq db))
  end.

(** [UPDATE users SET k1 = ?, ... WHERE user_id = ?]. With no keyword
    argument the statement is [UPDATE users SET  WHERE ...], which the
    driver refuses. A statement that matches no row changes nothing and
    returns as any other. *)
Definition update_user (uid : string) (kwargs : list Assignment) (db : Db)
  : Result Db :=
  match kwargs with
  | [] => Raised OperationalError
  | _ :: _ =>
      Returned
        (mkDb
           ((fun r => if String.eqb (user_id r) uid
                      then fold_left assign kwargs r else r)
              <$> users db)
           (tasks db) (tasks_seq db))
  end.

(** [INSERT INTO tasks (user_id, task_content)]: the next id, unsent. *)
Definition add_task (uid content : string) (db : Db) : Db :=
  let i := S (tasks_seq db) in
  mkDb (users db) (tasks db ++ [mkTask i uid content false]) i.

(** [SELECT * FROM tasks WHERE user_id = ? AND is_digest_sent = 0]. *)
Definition get_unsent_tasks (uid : string) (db : Db) : list Task :=
  filter (fun t => String.eqb (task_user_id t) uid = true
                   ∧ is_digest_sent t = false) (tasks db).

Definition mark_sent (t : Task) : Task :=
  mkTask (id t) (task_user_id t) (task_content t) true.

(** [UPDATE tasks SET is_digest_sent = 1 WHERE id IN (...)]; nothing at all
    for an empty list. *)
Definition mark_tasks_sent (task_ids : list nat) (db : Db) : Db :=
  if negb (Py.truthy task_ids) then db
  else
    mkDb (users db)
      ((fun t => if bool_decide (id t ∈ task_ids) then mark_sent t else t)
         <$> tasks db)
      (tasks_seq db).

(** [SELECT * FROM users]. *)
Definition get_all_users (db : Db) : list User := users db.

(** [SELECT * FROM users WHERE stripe_customer_id = ?] on
    [str(stripe_customer_id)], [fetchone]. A NULL column equals nothing. *)
Definition get_user_by_stripe_id (customer : option string) (db : Db)
  : option User :=
  find (fun r => match stripe_customer_id r with
                 | Some c => String.eqb c (Py.str customer)
                 | None => false
                 end)
       (users db).

(** What the schema guarantees: [user_id] is the primary key of [users],
    [id] is unique in [tasks] and was handed out by the counter. *)
Definition well_formed (db : Db) : Prop :=
  NoDup (user_id <$> users db)
  ∧ NoDup (id <$> tasks db)
  ∧ Forall (fun t => (id t <= tasks_seq db)%nat) (tasks db).

End Database.

(** ** server.py *)

Module Server.
Import Database.

(** The fields of [event['data']['object']] the handler reads with [.get]:
    [None] stands for a missing key as well as for a JSON null. *)
Record StripeObject := mkObject {
  customer : option string;
  client_reference_id : option string;
  cancel_at_period_end : option bool;
  cancel_at : option Z;
  current_period_end : option Z
}.

(** A verified event; [previous_attributes] is [None] when the key is
    missing from [event['data']]. *)
Record Event := mkEvent {
  type : string;
  object : StripeObject;
  previous_attributes : option (gmap string Py.JVal)
}.

(** The three outcomes of [stripe.Webhook.construct_event]. *)
Inductive Constructed :=
| InvalidPayload
| InvalidSignature
| Verified (event : Event).

(** What the route answers; an exception that leaves the handler is the
    framework's 500. *)
Inductive Response :=
| Http400 (body : string)
| Http200
| Http500.

(** A message handed to Telegram: chat id and text. *)
Definition Message : Type := string * string.

(** [notify_user] posts once and swallows whatever the post raises. *)
Definition notify_user (uid message : string) (outbox : list Message)
  : list Message :=
  outbox ++ [(uid, message)].

Definition pro_activated_msg : string :=
  "🎉 *Congratulations!*" ++ Py.LF ++ Py.LF
  ++ "Your *Pro Plan* is active." ++ Py.LF
  ++ "✅ 300 Minutes/month" ++ Py.LF
  ++ "✅ Daily Digest at 6 PM" ++ Py.LF
  ++ "✅ Todoist & Notion Sync" ++ Py.LF ++ Py.LF
  ++ "Use `/settings` to configure your features!".

Definition subscription_ended_msg : string :=
  "📉 *Subscription Ended*" ++ Py.LF ++ Py.LF
  ++ "Your subscription has expired or was cancelled." ++ Py.LF
  ++ "You have been downgraded to the *Free Tier* (5 mins/mo)." ++ Py.LF
  ++ "Use `/managesub` to resubscribe at any time.".

Definition cancellation_scheduled_msg (end_date : string) : string :=
  "⚠️ *Subscription Cancellation Scheduled*" ++ Py.LF ++ Py.LF
  ++ "Your access will remain Pro until " ++ end_date ++ "." ++ Py.LF
  ++ "After that, you will be downgraded to the Free Tier.".

(** [is_cancelling = cancel_at_period_end or cancel_at], as a truth value. *)
Definition is_cancelling (data : StripeObject) : bool :=
  Py.truthy (cancel_at_period_end data) || Py.truthy (cancel_at data).

(** [event['data'].get('previous_attributes', {})] *)
Definition prev_attrs (event : Event) : gmap string Py.JVal :=
  default ∅ (previous_attributes event).

(** The flag computed before the user is looked up. *)
Definition should_notify (event : Event) : bool :=
  let data := object event in
  if is_cancelling data then
    if Py.contains "cancel_at_period_end" (prev_attrs event)
       && Py.truthy (cancel_at_period_end data)
    then true
    else if Py.contains "cancel_at" (prev_attrs event)
            && Py.truthy (cancel_at data)
    then true
    else false
  else false.

(** [end_ts]: the period end, replaced by the explicit cancel date if set. *)
Definition end_ts (data : StripeObject) : option Z :=
  if Py.truthy (cancel_at data) then cancel_at data
  else current_period_end data.

(** [datetime.fromtimestamp(ts).strftime('%Y-%m-%d')], in the zone [local]
    of the server. (CPython raises outside the years 1 to 9999; only
    instants within that range are meant.) *)
Definition fromtimestamp_Ymd (local : Datetime.tzinfo) (ts : Z) : string :=
  Datetime.strftime_Ymd (Datetime.astimezone local ts).

Definition end_date (local : Datetime.tzinfo) (data : StripeObject) : string :=
  match end_ts data with
  | Some ts =>
      if Py.truthy ts then fromtimestamp_Ymd local ts
      else "the end of the billing period"
  | None => "the end of the billing period"
  end.

(** The [/webhook] route after signature verification: the answer, the
    store and the messages posted. *)
Definition webhook (local : Datetime.tzinfo) (req : Constructed) (db : Db)
  : Response * Db * list Message :=
  match req with
  | InvalidPayload => (Http400 "Invalid payload", db, [])
  | InvalidSignature => (Http400 "Invalid signature", db, [])
  | Verified event =>
      let data := object event in
      if String.eqb (type event) "checkout.session.completed" then
        if Py.truthy (client_reference_id data) then
          let uid := Py.str (client_reference_id data) in
          match update_user uid
                  [set_plan_tier "pro"; set_stripe_customer_id (customer data)]
                  db with
          | Returned db' => (Http200, db', notify_user uid pro_activated_msg [])
          | Raised _ => (Http500, db, [])
          end
        else (Http200, db, [])
      else if String.eqb (type event) "customer.subscription.deleted" then
        match get_user_by_stripe_id (customer data) db with
        | Some user =>
            match update_user (user_id user) [set_plan_tier "free"] db with
            | Returned db' =>
                (Http200, db',
                 notify_user (user_id user) subscription_ended_msg [])
            | Raised _ => (Http500, db, [])
            end
        | None => (Http200, db, [])
        end
      else if String.eqb (type event) "customer.subscription.updated" then
        if should_notify event then
          match get_user_by_stripe_id (customer data) db with
          | Some user =>
              (Http200, db,
               notify_user (user_id user)
                 (cancellation_scheduled_msg (end_date local data)) [])
          | None => (Http200, db, [])
          end
        else (Http200, db, [])
      else (Http200, db, [])
  end.

End Server.

(** ** bot.py *)

Module Bot.
Import Database.

Definition FREE_TIER_MINUTES : Q := 5.
Definition PRO_TIER_MINUTES : Q := 300.

(** [pytz.timezone]: the zone of a name, [None] when it raises
    [UnknownTimeZoneError]. The zone database is the library's. *)
Definition Pytz : Type := string -> option Datetime.tzinfo.

(** The texts a handler answers with, in the order it sends them. Sending
    an answer is taken to succeed, except for the closing answers of
    [handle_voice], whose outcome the voice note below records. *)
Inductive Reply :=
| DigestSet (time_str : string)
| InvalidFormat
| TimezoneUsage
| TimezoneSet (tz_str : string)
| InvalidTimezone
| LimitReached (used limit : Q)
| Processing
| TooLong (duration_mins : Q)
| Done
| VoiceNoteTasks (content : string) (new_total limit : Q)
| NoTasksFound
| ErrorProcessing.

(** [/set_digest]: [args] is [context.args]. With no argument [time_str] is
    [None] and [strptime] raises; the bare [except] answers every exception
    of the block alike. *)
Definition set_digest (uid : string) (args : list string) (db : Db)
  : Db * list Reply :=
  match head args with
  | None => (db, [InvalidFormat])
  | Some time_str =>
      match Datetime.strptime_HM time_str with
      | None => (db, [InvalidFormat])
      | Some _ =>
          match update_user uid [set_digest_time time_str] db with
          | Returned db' => (db', [DigestSet time_str])
          | Raised _ => (db, [InvalidFormat])
          end
      end
  end.

(** [/set_timezone] *)
Definition set_timezone (pytz : Pytz) (uid : string) (args : list string)
    (db : Db) : Db * list Reply :=
  match head args with
  | None => (db, [TimezoneUsage])
  | Some tz_str =>
      if negb (Py.truthy tz_str) then (db, [TimezoneUsage])
      else
        match pytz tz_str with
        | None => (db, [InvalidTimezone])
        | Some _ =>
            match update_user uid [set_timezone tz_str] db with
            | Returned db' => (db', [TimezoneSet tz_str])
            | Raised _ => (db, [InvalidTimezone])
            end
        end
  end.

(** The outcome of a call to an external service. *)
Inductive Outcome (A : Type) :=
| Ok (a : A)
| Raises.
Arguments Ok {A} a.
Arguments Raises {A}.

(** A voice message and what the outside world does with it:
    - [duration]: [voice.duration], in seconds;
    - [download]: [get_file] and [download_to_drive];
    - [transcription]: [upload_file], [generate_content] and [response.text]
      (the empty string when the model returns no text);
    - [closing_replies]: [edit_text("Done")] and [reply_markdown].
    The two sync helpers catch their own exceptions and touch neither
    table; they only add a footer to the answer and are left out. *)
Record VoiceNote := mkVoiceNote {
  duration : Z;
  download : Outcome unit;
  transcription : Outcome string;
  closing_replies : Outcome unit
}.

Definition limit_of (plan : string) : Q :=
  if String.eqb plan "pro" then PRO_TIER_MINUTES else FREE_TIER_MINUTES.

Definition duration_mins (note : VoiceNote) : Q :=
  let duration_seconds := if Py.truthy (duration note) then duration note else 0 in
  inject_Z duration_seconds / 60.

(** The two quota checks of [handle_voice]. *)
Definition limit_reached (used limit : Q) : bool := Qle_bool limit used.
Definition too_long (used mins limit : Q) : bool :=
  negb (Qle_bool (used + mins) limit).

Definition handle_voice (uid : string) (note : VoiceNote) (db : Db)
  : Db * list Reply :=
  let '(user_data, db) := check_user_status uid db in
  let plan := plan_tier user_data in
  let used := minutes_used user_data in
  let limit := limit_of plan in
  if limit_reached used limit then (db, [LimitReached used limit])
  else if too_long used (duration_mins note) limit
  then (db, [Processing; TooLong (duration_mins note)])
  else
    match download note with
    | Raises => (db, [Processing; ErrorProcessing])
    | Ok _ =>
        match transcription note with
        | Raises => (db, [Processing; ErrorProcessing])
        | Ok text =>
            if Py.truthy text then
              let new_total := (used + duration_mins note)%Q in
              match update_user uid [set_minutes_used new_total] db with
              | Raised _ => (db, [Processing; ErrorProcessing])
              | Returned db1 =>
                  let db2 := add_task uid text db1 in
                  match closing_replies note with
                  | Ok _ =>
                      (db2, [Processing; Done;
                             VoiceNoteTasks text new_total limit])
                  | Raises => (db2, [Processing; ErrorProcessing])
                  end
              end
            else (db, [Processing; NoTasksFound])
        end
    end.

(** The answer of a request that one of the two quota checks turned down. *)
Definition rejected (replies : list Reply) : bool :=
  match replies with
  | [LimitReached _ _] => true
  | [Processing; TooLong _] => true
  | _ => false
  end.

(** *** Daily digest *)

(** [context.bot.send_message]: [true] when it returns, [false] when it
    raises. *)
Definition Sender : Type := string -> string -> bool.

(** One call of [send_message]: chat id, text, and whether it returned. *)
Record Delivery := mkDelivery {
  chat_id : string;
  text : string;
  delivered : bool
}.

Definition digest_body (tasks : list Task) : string :=
  fold_left
    (fun body t =>
       body ++ "• " ++ Py.take_prefix 100 (task_content t) ++ "..." ++ Py.LF)
    tasks
    ("🌅 *Your Daily Digest*" ++ Py.LF ++ Py.LF)
  ++ Py.LF ++ "Check your task manager for details!".

(** [user_local_time.strftime("%H:%M")], [None] when the zone is unknown. *)
Definition user_time_str (pytz : Pytz) (utc_now : Z) (user : User)
  : option string :=
  let user_tz_str := if Py.truthy (timezone user) then timezone user else "UTC" in
  tz ← pytz user_tz_str;
  Some (Datetime.strftime_HM (Datetime.astimezone tz utc_now)).

(** The body of the loop for one user. An unknown zone raises and is caught
    by the outer [except]; a failed send is caught by the inner one. *)
Definition digest_user (pytz : Pytz) (send : Sender) (utc_now : Z)
    (st : Db * list Delivery) (user : User) : Db * list Delivery :=
  let '(db, log) := st in
  match user_time_str pytz utc_now user with
  | None => (db, log)
  | Some now_str =>
      if String.eqb now_str (digest_time user) then
        let tasks := get_unsent_tasks (user_id user) db in
        if Py.truthy tasks then
          let body := digest_body tasks in
          if send (user_id user) body then
            (mark_tasks_sent (id <$> tasks) db,
             (log ++ [mkDelivery (user_id user) body true])%list)
          else (db, (log ++ [mkDelivery (user_id user) body false])%list)
        else (db, log)
      else (db, log)
  end.

(** One sweep at the instant [utc_now]: the store afterwards and the calls
    of [send_message] made. *)
Definition daily_digest_job (pytz : Pytz) (send : Sender) (utc_now : Z)
    (db : Db) : Db * list Delivery :=
  fold_left (digest_user pytz send utc_now) (get_all_users db) (db, []).

(** The sweep called the sender for [uid]. *)
Definition fires_for (uid : string) (log : list Delivery) : Prop :=
  ∃ d, d ∈ log ∧ chat_id d = uid.

End Bot.

(** ** Concrete stores, events and zones used in the examples *)

Module Samples.
Import Database Server Bot.

Definition utc : Datetime.tzinfo := {| Datetime.utcoffset := fun _ => 0 |}.
Definition singapore : Datetime.tzinfo :=
  {| Datetime.utcoffset := fun _ => 8 * 3600 |}.

(** Two entries of the zone database, as they stand since 1982. *)
Definition iana_excerpt : Pytz :=
  fun name =>
    if String.eqb name "UTC" then Some utc
    else if String.eqb name "Asia/Singapore" then Some singapore
    else None.

Definition empty_db : Db := mkDb [] [] 0.

(** A paying user linked to the customer [cus_A]. *)
Definition alice : User :=
  mkUser "1001" (Some "cus_A") 12 "pro" None None None "18:00" "Asia/Singapore".

(** A free user who has used the whole quota. *)
Definition bob : User := mkUser "1002" None 5 "free" None None None "18:00" "UTC".

(** A free user with four minutes used. *)
Definition carol : User := mkUser "1003" None 4 "free" None None None "18:00" "UTC".

Definition db1 : Db :=
  mkDb [alice; bob; carol]
       [mkTask 1 "1001" "* call the dentist" false;
        mkTask 2 "1002" "* buy milk" false;
        mkTask 3 "1001" "* send the invoice" true]
       3.

Definition subscription_updated (data : StripeObject)
    (prev : option (gmap string Py.JVal)) : Event :=
  mkEvent "customer.subscription.updated" data prev.

(** The customer turned on "cancel at period end". *)
Definition cancel_requested : Event :=
  subscription_updated
    (mkObject (Some "cus_A") None (Some true) None (Some 1705312800))
    (Some {[ "cancel_at_period_end" := Py.JBool false ]}).

(** An unrelated update of a subscription that is already cancelling. *)
Definition unrelated_update : Event :=
  subscription_updated
    (mkObject (Some "cus_A") None (Some true) None (Some 1705312800))
    (Some ∅).

(** A cancel date was set, with a later period end. *)
Definition cancel_date_set : Event :=
  subscription_updated
    (mkObject (Some "cus_A") None (Some false) (Some 1705312800)
       (Some 1707991200))
    (Some {[ "cancel_at" := Py.JNull ]}).

Definition checkout_completed : Event :=
  mkEvent "checkout.session.completed"
    (mkObject (Some "cus_B") (Some "1002") None None None) None.

(** A voice message of [seconds] seconds that every service handles. *)
Definition voice_note (seconds : Z) : VoiceNote :=
  mkVoiceNote seconds (Ok tt) (Ok "* buy stamps") (Ok tt).

(** A voice message that is transcribed, after which the closing answer
    cannot be sent. *)
Definition voice_note_unanswered : VoiceNote :=
  mkVoiceNote 30 (Ok tt) (Ok "* buy stamps") Raises.

(** A sender for which every call returns, and one for which every call
    raises. *)
Definition always_delivers : Sender := fun _ _ => true.
Definition never_delivers : Sender := fun _ _ => false.

(** 2024-01-15T10:00:00Z *)
Definition reference_instant : Z := Datetime.utc_instant 2024 1 15 10 0 0.

End Samples.

(** ** bot.py: the remaining commands that write to the store *)

Module Commands.
Import Database.

(** The answers of [/start] and of the three token commands. *)
Inductive Reply :=
| Welcome
| TodoistUsage
| TodoistSaved
| NotionUsage
| NotionSaved
| NotionPageUsage
| NotionPageSaved.

(** [/start]: creates the account when it is missing, then greets. *)
Definition start (uid : string) (db : Db) : Db * list Reply :=
  ((check_user_status uid db).2, [Welcome]).

(** The shape shared by [/set_todoist], [/set_notion] and
    [/set_notion_page]: the first argument, if there is one and it is not
    empty, is written to one column. These handlers have no [try]: an
    exception of the statement leaves the handler, and nothing is answered. *)
Definition set_column (column : string → Assignment) (usage saved : Reply)
    (uid : string) (args : list string) (db : Db) : Db * list Reply :=
  match head args with
  | None => (db, [usage])
  | Some token =>
      if negb (Py.truthy token) then (db, [usage])
      else
        match update_user uid [column token] db with
        | Returned db' => (db', [saved])
        | Raised _ => (db, [])
        end
  end.

Definition set_todoist := set_column set_todoist_token TodoistUsage TodoistSaved.
Definition set_notion := set_column set_notion_token NotionUsage NotionSaved.
Definition set_notion_page :=
  set_column set_notion_page_id NotionPageUsage NotionPageSaved.

End Commands.

(** ** bot.py: sending the tasks to Todoist and Notion *)

Module Sync.

(** *** [str.strip()]

    Python removes from both ends the characters for which [isspace] holds.
    In UTF-8 these are the byte sequences below: the ASCII ones (tab to
    carriage return, the four separators 28 to 31, space), then U+0085,
    U+00A0, U+1680, U+2000 to U+200A, U+2028, U+2029, U+202F, U+205F and
    U+3000. *)
Definition whitespace : list (list ascii) :=
  (fun seq : list nat => ascii_of_nat <$> seq) <$>
    [[9]; [10]; [11]; [12]; [13]; [28]; [29]; [30]; [31]; [32];
     [194; 133]; [194; 160]; [225; 154; 128];
     [226; 128; 128]; [226; 128; 129]; [226; 128; 130]; [226; 128; 131];
     [226; 128; 132]; [226; 128; 133]; [226; 128; 134]; [226; 128; 135];
     [226; 128; 136]; [226; 128; 137]; [226; 128; 138];
     [226; 128; 168]; [226; 128; 169]; [226; 128; 175];
     [226; 129; 159]; [227; 128; 128]]%nat.

(** What is left of [l] after its prefix [p], if [p] is a prefix of [l]. *)
Fixpoint after (p l : list ascii) : option (list ascii) :=
  match p, l with
  | [], _ => Some l
  | c :: p', d :: l' => if Ascii.eqb c d then after p' l' else None
  | _ :: _, [] => None
  end.

(** [l] without the first of [seqs] it starts with, if it starts with one. *)
Definition drop_one (seqs : list (list ascii)) (l : list ascii)
  : option (list ascii) :=
  head (omap (fun seq => after seq l) seqs).

(** Remove leading sequences for as long as there is one; [n] bounds the
    number of removals. *)
Fixpoint drop_leading (seqs : list (list ascii)) (n : nat) (l : list ascii)
  : list ascii :=
  match n with
  | O => l
  | S n' =>
      match drop_one seqs l with
      | Some rest => drop_leading seqs n' rest
      | None => l
      end
  end.

Definition lstrip (l : list ascii) : list ascii :=
  drop_leading whitespace (length l) l.

Definition rstrip (l : list ascii) : list ascii :=
  reverse (drop_leading (reverse <$> whitespace) (length l) (reverse l)).

Definition strip (s : string) : string :=
  string_of_list_ascii (rstrip (lstrip (list_ascii_of_string s))).

(** *** The other string methods the two functions use *)

(** [s.split('\n')] *)
Fixpoint split_lines (s : string) : list string :=
  match s with
  | EmptyString => [EmptyString]
  | String c s' =>
      if Ascii.eqb c (ascii_of_nat 10) then EmptyString :: split_lines s'
      else
        match split_lines s' with
        | line :: lines => String c line :: lines
        | [] => [String c EmptyString]
        end
  end.

(** [s.startswith(p)] *)
Definition startswith (p s : string) : bool := String.prefix p s.

(** [s[n:]] for a prefix of [n] ASCII characters. *)
Fixpoint drop_chars (n : nat) (s : string) : string :=
  match n, s with
  | S n', String _ s' => drop_chars n' s'
  | _, _ => s
  end.

(** [s.replace("*", "")] *)
Fixpoint remove_stars (s : string) : string :=
  match s with
  | EmptyString => EmptyString
  | String c s' =>
      if Ascii.eqb c "*" then remove_stars s' else String c (remove_stars s')
  end.

(** *** The lines of the text *)

(** [sync_to_todoist], one line: the content of the subtask it posts, or
    [None] when the line is skipped (blank, or not a list item). *)
Definition todoist_line (line : string) : option string :=
  let line := strip line in
  if negb (Py.truthy line) then None
  else if negb (startswith "-" line || startswith "*" line) then None
  else
    let clean_content :=
      if startswith "- [ ] " line then drop_chars 6 line
      else if startswith "- [x] " line then drop_chars 6 line
      else if startswith "- " line then drop_chars 2 line
      else if startswith "* " line then drop_chars 2 line
      else line in
    Some (strip (remove_stars clean_content)).

Definition todoist_contents (tasks_text : string) : list string :=
  omap todoist_line (split_lines tasks_text).

(** A block of the Notion page. *)
Inductive Block :=
| to_do (content : string) (checked : bool)
| paragraph (line : string).

(** [sync_to_notion], one line: the block it appends, or [None] for a blank
    line. A paragraph carries the line as it is, asterisks included. *)
Definition notion_line (line : string) : option Block :=
  let line := strip line in
  if negb (Py.truthy line) then None
  else
    let '(content, is_todo, is_checked) :=
      if startswith "- [ ] " line then (drop_chars 6 line, true, false)
      else if startswith "- [x] " line then (drop_chars 6 line, true, true)
      else if startswith "- " line then (drop_chars 2 line, true, false)
      else if startswith "* " line then (drop_chars 2 line, true, false)
      else (line, false, false) in
    let content := strip (remove_stars content) in
    Some (if is_todo then to_do content is_checked else paragraph line).

Definition notion_blocks (tasks_text : string) : list Block :=
  omap notion_line (split_lines tasks_text).

(** *** The requests *)

(** The JSON body of a request to the Todoist tasks endpoint. *)
Record TodoistTask := mkTodoistTask {
  content : string;
  due_string : option string;
  parent_id : option Py.JVal
}.

(** What comes back: the status code, and the ["id"] of the JSON body
    ([resp.json().get("id")], which raises when the body is not JSON). *)
Record TodoistResponse := mkTodoistResponse {
  status_code : Z;
  json_id : Bot.Outcome Py.JVal
}.

(** [requests.post] to Todoist: a response, or an exception. *)
Definition TodoistApi : Type := TodoistTask → Bot.Outcome TodoistResponse.

(** The subtasks, one request each; the responses are not looked at, an
    exception ends the function. Returns the value of [sync_to_todoist] and
    the requests made. *)
Fixpoint post_subtasks (post : TodoistApi) (parent : Py.JVal)
    (contents : list string) (sent : list TodoistTask)
  : bool * list TodoistTask :=
  match contents with
  | [] => (true, sent)
  | clean_content :: rest =>
      let sub_data := mkTodoistTask clean_content None (Some parent) in
      match post sub_data with
      | Bot.Ok _ => post_subtasks post parent rest (sent ++ [sub_data])%list
      | Bot.Raises => (false, (sent ++ [sub_data])%list)
      end
  end.

(** [sync_to_todoist]; [now_title] is the title [datetime.now()] gives when
    none is passed. Returns the result and the requests made, in order. *)
Definition sync_to_todoist (post : TodoistApi) (now_title : string)
    (token : option string) (tasks_text : string) (title : option string)
  : bool * list TodoistTask :=
  if negb (Py.truthy token) then (false, [])
  else
    let title := if Py.truthy title then Py.str title else now_title in
    let parent_data := mkTodoistTask title (Some "today"%string) None in
    match post parent_data with
    | Bot.Raises => (false, [parent_data])
    | Bot.Ok resp =>
        if negb (status_code resp =? 200)%Z then (false, [parent_data])
        else
          match json_id resp with
          | Bot.Raises => (false, [parent_data])
          | Bot.Ok parent =>
              post_subtasks post parent (todoist_contents tasks_text)
                [parent_data]
          end
    end.

(** The JSON body of the one request to the Notion pages endpoint. *)
Record NotionPage := mkNotionPage {
  page_parent : string;
  page_title : string;
  children : list Block
}.

(** [requests.post] to Notion: the status code, or an exception. *)
Definition NotionApi : Type := NotionPage → Bot.Outcome Z.

Definition sync_to_notion (post : NotionApi) (now_title : string)
    (token page_id : option string) (tasks_text : string)
    (title : option string) : bool * list NotionPage :=
  if negb (Py.truthy token) || negb (Py.truthy page_id) then (false, [])
  else
    let title := if Py.truthy title then Py.str title else now_title in
    let data := mkNotionPage (Py.str page_id) title (notion_blocks tasks_text) in
    match post data with
    | Bot.Raises => (false, [data])
    | Bot.Ok status => ((status =? 200)%Z, [data])
    end.

End Sync.

(** ** The text the prompt asks the model for *)

Module Markdown.

(** A Markdown checklist: one line ["- [ ] item"] per item, each ended by a
    line feed. *)
Definition checklist (items : list string) : string :=
  fold_right (fun item text => "- [ ] " ++ item ++ Py.LF ++ text)%string
    EmptyString items.

End Markdown.

(** * Properties *)

Import Database Server Bot.

(** ** Truth values *)

(** A timestamp passes the test [if ts:] unless it is missing or 0. *)
Lemma truthy_cancel_at_nonzero (t : Z) :
  Py.truthy (Some t) = true ↔ t ≠ 0.
Proof.
  unfold Py.truthy, Py.truthy_option, Py.truthy, Py.truthy_int.
  rewrite negb_true_iff, Z.eqb_neq. reflexivity.
Qed.

Lemma contains_dom (k : string) (d : gmap string Py.JVal) :
  Py.contains k d = true ↔ k ∈ dom d.
Proof.
  unfold Py.contains. rewrite elem_of_dom.
  destruct (d !! k) as [v|]; split; intros H; done.
Qed.

(** ** The users table *)

Lemma assign_user_id r a : user_id (assign r a) = user_id r.
Proof. by destruct a. Qed.

Lemma fold_assign_user_id kwargs r :
  user_id (fold_left assign kwargs r) = user_id r.
Proof.
  revert r. induction kwargs as [|a kwargs IH]; intros r; simpl; [done|].
  by rewrite IH, assign_user_id.
Qed.

Lemma select_user_None uid db :
  select_user uid db = None ↔ ∀ r, r ∈ users db → user_id r ≠ uid.
Proof.
  unfold select_user. split.
  - intros H r Hr Heq. apply list_elem_of_In in Hr.
    pose proof (find_none _ _ H r Hr) as Hf. simpl in Hf.
    apply String.eqb_neq in Hf. done.
  - intros H. induction (users db) as [|r l IH]; simpl; [done|].
    destruct (String.eqb (user_id r) uid) eqn:E.
    + apply String.eqb_eq in E. exfalso. eapply H; [|exact E]. left.
    + apply IH. intros r' Hr'. apply H. by right.
Qed.

Lemma select_user_Some uid db r :
  select_user uid db = Some r → r ∈ users db ∧ user_id r = uid.
Proof.
  unfold select_user. intros H. apply find_some in H as [Hin Heq].
  split; [by apply list_elem_of_In | by apply String.eqb_eq].
Qed.

(** A statement whose WHERE clause matches no row leaves the table as it
    is. *)
Lemma update_absent_rows uid (f : User → User) (l : list User) :
  (∀ r, r ∈ l → user_id r ≠ uid) →
  (λ r, if String.eqb (user_id r) uid then f r else r) <$> l = l.
Proof.
  induction l as [|r l IH]; intros H; [done|].
  rewrite fmap_cons, IH by (intros r' Hr'; apply H; by right).
  destruct (String.eqb (user_id r) uid) eqn:E; [|done].
  apply String.eqb_eq in E. exfalso. eapply H; [|exact E]. left.
Qed.

(** ** C3: updating an account that does not exist *)

(** C3, as the claim states it, fails: for the id "42", absent from the
    empty store, [update_user] returns normally; it raises nothing. *)
Lemma C3_update_absent_returns_normally :
  select_user "42" Samples.empty_db = None
  ∧ ¬ ∃ e, update_user "42" [set_todoist_token "tok"] Samples.empty_db
           = Raised e.
Proof. split; [reflexivity|]. intros [e He]. discriminate He. Qed.

(** C3, amended: for every account id absent from the store, [update_user]
    with at least one field returns normally and leaves the store exactly as
    it was; whatever it is called with, the account is still absent
    afterwards (nothing is created), and no error is signalled for the
    missing account. *)
Theorem C3_update_absent_is_silent_noop uid kwargs db :
  select_user uid db = None →
  (kwargs ≠ [] → update_user uid kwargs db = Returned db)
  ∧ (∀ db', update_user uid kwargs db = Returned db' →
            db' = db ∧ select_user uid db' = None).
Proof.
  intros Habs.
  assert (Hret : kwargs ≠ [] → update_user uid kwargs db = Returned db).
  { intros Hne. destruct kwargs as [|a kwargs]; [done|].
    unfold update_user. f_equal.
    rewrite update_absent_rows by (by apply select_user_None).
    by destruct db. }
  split; [exact Hret|].
  intros db' H. destruct kwargs as [|a kwargs]; [discriminate H|].
  rewrite Hret in H by done. injection H as <-. done.
Qed.

Lemma C3_update_absent_is_silent_noop_witness :
  update_user "42" [set_plan_tier "pro"] Samples.db1 = Returned Samples.db1.
Proof.
  apply (C3_update_absent_is_silent_noop "42" [set_plan_tier "pro"] Samples.db1).
  - reflexivity.
  - discriminate.
Defined.

(** ** The billing webhook *)

Lemma update_twice uid (f : User → User) (l : list User) :
  (∀ r, user_id (f r) = user_id r) → (∀ r, f (f r) = f r) →
  let g := λ r, if String.eqb (user_id r) uid then f r else r in
  g <$> (g <$> l) = g <$> l.
Proof.
  intros Hid Hff g. rewrite <- list_fmap_compose.
  apply list_fmap_ext. intros _ r _. unfold g; simpl.
  destruct (String.eqb (user_id r) uid) eqn:E.
  - by rewrite Hid, E, Hff.
  - by rewrite E.
Qed.

(** What a completed checkout does to the store. *)
Lemma webhook_checkout local event db :
  type event = "checkout.session.completed" →
  Py.truthy (client_reference_id (object event)) = true →
  (webhook local (Verified event) db).1.2
  = mkDb ((λ r, if String.eqb (user_id r)
                     (Py.str (client_reference_id (object event)))
                then assign (assign r (set_plan_tier "pro"))
                       (set_stripe_customer_id (customer (object event)))
                else r) <$> users db)
         (tasks db) (tasks_seq db).
Proof.
  intros Hty Hcr. unfold webhook. rewrite Hty, Hcr. reflexivity.
Qed.

(** C7: delivering the same CheckoutCompleted event (client reference
    present) a second time leaves the store as the first delivery left it;
    in that store the account named by the client reference, when there is
    one, has plan "pro" and the customer of the event as its billing
    reference, and an account that existed before is still there. *)
Theorem C7_checkout_redelivery_is_idempotent local event db :
  type event = "checkout.session.completed" →
  Py.truthy (client_reference_id (object event)) = true →
  let uid := Py.str (client_reference_id (object event)) in
  let once := (webhook local (Verified event) db).1.2 in
  let twice := (webhook local (Verified event) once).1.2 in
  twice = once
  ∧ (∀ r, r ∈ users once → user_id r = uid →
       plan_tier r = "pro"
       ∧ stripe_customer_id r = customer (object event))
  ∧ (∀ r, r ∈ users db → user_id r = uid →
       ∃ r', r' ∈ users once ∧ user_id r' = uid).
Proof.
  intros Hty Hcr uid once twice. unfold twice, once.
  rewrite !webhook_checkout by done. fold uid. simpl.
  split; [|split].
  - f_equal.
    apply (update_twice uid
             (λ r, assign (assign r (set_plan_tier "pro"))
                     (set_stripe_customer_id (customer (object event))))).
    + intros r. by rewrite !assign_user_id.
    + done.
  - intros r Hr Hid. apply list_elem_of_fmap in Hr as (r0 & -> & _).
    destruct (String.eqb (user_id r0) uid) eqn:E; [done|].
    apply String.eqb_neq in E. done.
  - intros r Hr Hid. eexists. split.
    + apply list_elem_of_fmap. exists r. split; [reflexivity|done].
    + simpl. by rewrite Hid, String.eqb_refl.
Qed.

Lemma C7_checkout_redelivery_is_idempotent_witness :
  let once :=
    (webhook Samples.utc (Verified Samples.checkout_completed) Samples.db1).1.2 in
  (webhook Samples.utc (Verified Samples.checkout_completed) once).1.2 = once
  ∧ select_user "1002" once
    = Some (mkUser "1002" (Some "cus_B") 5 "pro" None None None "18:00" "UTC").
Proof.
  split.
  - apply (C7_checkout_redelivery_is_idempotent Samples.utc
             Samples.checkout_completed Samples.db1); reflexivity.
  - reflexivity.
Defined.

(** The flag [should_notify], read as the condition of the transition
    table. *)
Lemma should_notify_spec event :
  let data := object event in
  should_notify event = true
  ↔ (Py.truthy (cancel_at_period_end data) = true
     ∨ Py.truthy (cancel_at data) = true)
    ∧ ((Py.truthy (cancel_at_period_end data) = true
        ∧ "cancel_at_period_end" ∈ dom (prev_attrs event))
       ∨ (Py.truthy (cancel_at data) = true
          ∧ "cancel_at" ∈ dom (prev_attrs event))).
Proof.
  intros data. unfold should_notify, is_cancelling. fold data.
  rewrite <- !contains_dom.
  destruct (Py.truthy (cancel_at_period_end data)),
    (Py.truthy (cancel_at data)),
    (Py.contains "cancel_at_period_end" (prev_attrs event)),
    (Py.contains "cancel_at" (prev_attrs event)); simpl; intuition congruence.
Qed.

(** The messages posted for a SubscriptionUpdated event whose customer
    matches an account. *)
Lemma webhook_subscription_updated local event db user :
  type event = "customer.subscription.updated" →
  get_user_by_stripe_id (customer (object event)) db = Some user →
  (webhook local (Verified event) db).2
  = if should_notify event
    then [(user_id user,
           cancellation_scheduled_msg (end_date local (object event)))]
    else [].
Proof.
  intros Hty Hu. unfold webhook. rewrite Hty, Hu.
  change (String.eqb "customer.subscription.updated"
            "checkout.session.completed") with false.
  change (String.eqb "customer.subscription.updated"
            "customer.subscription.deleted") with false.
  change (String.eqb "customer.subscription.updated"
            "customer.subscription.updated") with true.
  cbv iota. by destruct (should_notify event).
Qed.



(** The day of the month and the month that [civil_from_days] returns are
    those of a calendar date. *)
Lemma civil_from_days_range days :
  let '(_, m, d) := Datetime.civil_from_days days in
  1 ≤ m ≤ 12 ∧ 1 ≤ d ≤ 31.
Proof.
  unfold Datetime.civil_from_days. cbv zeta.
  set (z := days + 719468).
  set (era := z / 146097).
  set (doe := z - era * 146097).
  assert (Hdoe : 0 ≤ doe < 146097).
  { unfold doe, era. pose proof (Z.mod_pos_bound z 146097 eq_refl) as Hb.
    rewrite Z.mod_eq in Hb by lia. lia. }
  set (yoe := (doe - doe / 1460 + doe / 36524 - doe / 146096) / 365).
  set (doy := doe - (365 * yoe + yoe / 4 - yoe / 100)).
  assert (Hdoy : 0 ≤ doy ≤ 365).
  { unfold doy, yoe.
    Z.div_mod_to_equations. lia. }
  set (mp := (5 * doy + 2) / 153).
  assert (Hmp : 0 ≤ mp ≤ 11). { unfold mp. Z.div_mod_to_equations. lia. }
  split.
  - destruct (mp <? 10) eqn:E; [apply Z.ltb_lt in E | apply Z.ltb_ge in E]; lia.
  - unfold mp. Z.div_mod_to_equations. lia.
Qed.



(** ** The usage meter *)

Lemma select_user_app_new uid db :
  select_user uid db = None →
  select_user uid (mkDb (users db ++ [new_user uid]) (tasks db) (tasks_seq db))
  = Some (new_user uid).
Proof.
  unfold select_user; simpl. induction (users db) as [|r l IH]; simpl.
  - intros _. by rewrite String.eqb_refl.
  - destruct (String.eqb (user_id r) uid); [done | exact IH].
Qed.

(** After [check_user_status] the account exists and is the row returned. *)
Lemma check_user_status_select uid db :
  select_user uid (check_user_status uid db).2
  = Some (check_user_status uid db).1.
Proof.
  unfold check_user_status. destruct (select_user uid db) as [r|] eqn:E.
  - exact E.
  - by apply select_user_app_new.
Qed.

Lemma check_user_status_existing uid db r :
  select_user uid db = Some r → check_user_status uid db = (r, db).
Proof. intros H. unfold check_user_status. by rewrite H. Qed.

(** The row of [uid] after an update that matches it. *)
Lemma select_user_update uid (f : User → User) (l : list User) r :
  (∀ r, user_id (f r) = user_id r) →
  find (λ r, String.eqb (user_id r) uid) l = Some r →
  find (λ r, String.eqb (user_id r) uid)
       ((λ r, if String.eqb (user_id r) uid then f r else r) <$> l)
  = Some (f r).
Proof.
  intros Hid. induction l as [|r0 l IH]; [done|].
  rewrite fmap_cons. simpl.
  destruct (String.eqb (user_id r0) uid) eqn:E.
  - intros [= ->]. by rewrite Hid, E.
  - intros H. rewrite E. by apply IH.
Qed.

Lemma limit_reached_iff used limit :
  limit_reached used limit = true ↔ (limit <= used)%Q.
Proof. apply Qle_bool_iff. Qed.

Lemma too_long_iff used mins limit :
  too_long used mins limit = true ↔ (limit < used + mins)%Q.
Proof.
  unfold too_long. rewrite negb_true_iff.
  destruct (Qle_bool (used + mins) limit) eqn:E.
  - apply Qle_bool_iff in E. split; [done|]. intros H. lra.
  - split; [|done]. intros _. apply Qnot_le_lt. intros H.
    apply Qle_bool_iff in H. congruence.
Qed.

Lemma duration_mins_nonneg note :
  0 ≤ duration note → (0 <= duration_mins note)%Q.
Proof.
  intros H. unfold duration_mins.
  assert (Hd : (if Py.truthy (duration note) then duration note else 0)
               = duration note).
  { unfold Py.truthy, Py.truthy_int.
    destruct (duration note =? 0) eqn:E; simpl; [|done].
    apply Z.eqb_eq in E. by rewrite E. }
  rewrite Hd. unfold Qdiv. apply Qmult_le_0_compat.
  - change 0%Q with (inject_Z 0). by rewrite <- Zle_Qle.
  - done.
Qed.

(** [handle_voice] after the account has been fetched, by cases. *)
Lemma handle_voice_cases uid note db :
  let user := (check_user_status uid db).1 in
  let db0 := (check_user_status uid db).2 in
  let used := minutes_used user in
  let limit := limit_of (plan_tier user) in
  let mins := duration_mins note in
  handle_voice uid note db
  = if limit_reached used limit then (db0, [LimitReached used limit])
    else if too_long used mins limit then (db0, [Processing; TooLong mins])
    else
      match download note, transcription note with
      | Raises, _ | Ok _, Raises => (db0, [Processing; ErrorProcessing])
      | Ok _, Ok text =>
          if Py.truthy text then
            let db2 :=
              add_task uid text
                (mkDb ((λ r, if String.eqb (user_id r) uid
                             then assign r (set_minutes_used (used + mins))
                             else r) <$> users db0)
                      (tasks db0) (tasks_seq db0)) in
            match closing_replies note with
            | Ok _ =>
                (db2, [Processing; Done;
                       VoiceNoteTasks text (used + mins) limit])
            | Raises => (db2, [Processing; ErrorProcessing])
            end
          else (db0, [Processing; NoTasksFound])
      end.
Proof.
  unfold handle_voice. destruct (check_user_status uid db) as [user db0].
  reflexivity.
Qed.




(** C10, as the claim states it, fails: the account "1003" passes both quota
    checks, the transcription returns text, and then the closing answer
    raises; the handler answers with its error message, yet the minutes are
    charged and the item is stored. *)
Lemma C10_charged_although_a_step_raised :
  let out := handle_voice "1003" Samples.voice_note_unanswered Samples.db1 in
  closing_replies Samples.voice_note_unanswered = Raises
  ∧ out.2 = [Processing; ErrorProcessing]
  ∧ out.1 ≠ Samples.db1
  ∧ (minutes_used <$> select_user "1003" out.1) ≠ Some (minutes_used Samples.carol)
  ∧ length (tasks out.1) = S (length (tasks Samples.db1)).
Proof.
  repeat split; try reflexivity; vm_compute; discriminate.
Qed.

(** C10, amended: for a request that passes both quota checks, the store
    changes only when the download succeeds and the transcription returns
    non-empty text; then the usage is set to usage + p and one item is
    stored, whether or not the closing answer can be sent afterwards. When
    the download or the transcription raises, or the transcription returns
    no text, the users and the pending items are left as they were. *)
Theorem C10_charged_only_for_transcribed_text uid note db :
  let user := (check_user_status uid db).1 in
  let db0 := (check_user_status uid db).2 in
  let used := minutes_used user in
  let limit := limit_of (plan_tier user) in
  let p := duration_mins note in
  let out := handle_voice uid note db in
  limit_reached used limit = false →
  too_long used p limit = false →
  ((download note = Raises ∨ transcription note = Raises
    ∨ transcription note = Ok "") →
   out.1 = db0)
  ∧ (∀ text, download note = Ok tt → transcription note = Ok text →
             Py.truthy text = true →
       ∃ db1, update_user uid [set_minutes_used (used + p)] db0 = Returned db1
              ∧ out.1 = add_task uid text db1
              ∧ select_user uid out.1
                = Some (assign user (set_minutes_used (used + p)))
              ∧ tasks out.1
                = (tasks db0 ++ [mkTask (S (tasks_seq db0)) uid text false])%list)
  ∧ (out.1 ≠ db0 →
     ∃ text, download note = Ok tt ∧ transcription note = Ok text
             ∧ Py.truthy text = true).
Proof.
  intros user db0 used limit p out Hlimit Hlong.
  pose proof (check_user_status_select uid db) as Hsel.
  fold user db0 in Hsel.
  unfold out. rewrite handle_voice_cases. fold user db0 used limit p.
  rewrite Hlimit, Hlong.
  split; [|split].
  - intros [H|[H|H]]; rewrite H; [done| |].
    + by destruct (download note).
    + by destruct (download note).
  - intros text Hdl Htr Htext. rewrite Hdl, Htr, Htext.
    eexists. split; [reflexivity|].
    destruct (closing_replies note); simpl.
    all: split; [reflexivity|]; split; [|reflexivity].
    all: unfold select_user; simpl.
    all: apply (select_user_update uid
                  (λ r, assign r (set_minutes_used (used + p)))); [done|].
    all: exact Hsel.
  - destruct (download note) as [[]|]; [|done].
    destruct (transcription note) as [text|]; [|done].
    destruct (Py.truthy text) eqn:Htext; [|done].
    intros _. by exists text.
Qed.

Lemma C10_charged_only_for_transcribed_text_witness :
  tasks (handle_voice "1003" (Samples.voice_note 30) Samples.db1).1
  = (tasks Samples.db1 ++ [mkTask 4 "1003" "* buy stamps" false])%list.
Proof.
  destruct (C10_charged_only_for_transcribed_text "1003"
              (Samples.voice_note 30) Samples.db1 eq_refl eq_refl)
    as (_ & Hstored & _).
  destruct (Hstored "* buy stamps" eq_refl eq_refl eq_refl)
    as (db1 & _ & _ & _ & Htasks).
  exact Htasks.
Defined.

(** ** Settings commands *)

Lemma string_length_app (s1 s2 : string) :
  String.length (s1 ++ s2) = (String.length s1 + String.length s2)%nat.
Proof. induction s1 as [|c s1 IH]; simpl; [done | by rewrite IH]. Qed.

Lemma zfill_length w n : String.length (Py.zfill w n) = w.
Proof.
  revert n. induction w as [|w IH]; intros n; simpl; [done|].
  rewrite string_length_app, IH. simpl. lia.
Qed.

(** [strftime("%H:%M")] always writes five characters. *)
Lemma strftime_HM_length wall :
  String.length (Datetime.strftime_HM wall) = 5%nat.
Proof.
  unfold Datetime.strftime_HM. cbv zeta.
  rewrite !string_length_app, !zfill_length. reflexivity.
Qed.

Lemma user_time_str_length pytz utc_now user s :
  user_time_str pytz utc_now user = Some s → String.length s = 5%nat.
Proof.
  unfold user_time_str.
  destruct (pytz (if Py.truthy (timezone user) then timezone user else "UTC"))
    as [tz|]; [|done].
  intros H. injection H as <-. apply strftime_HM_length.
Qed.

(** A request that [set_digest] turns down leaves the store unchanged. *)
Lemma set_digest_rejected_unchanged uid args db :
  (set_digest uid args db).2 = [InvalidFormat] → (set_digest uid args db).1 = db.
Proof.
  unfold set_digest. destruct (head args) as [time_str|]; [|done].
  by destruct (Datetime.strptime_HM time_str).
Qed.

(** [set_digest] accepts exactly the strings [strptime] parses. *)
Lemma set_digest_accepts_iff uid time_str db :
  (set_digest uid [time_str] db).2 = [DigestSet time_str]
  ↔ is_Some (Datetime.strptime_HM time_str).
Proof.
  unfold set_digest; simpl.
  destruct (Datetime.strptime_HM time_str) as [hm|]; simpl.
  - split; [by eexists | done].
  - split; [done | by intros [? ?]].
Qed.

(** [set_timezone] accepts exactly the non-empty names the zone database
    knows, and leaves the store unchanged otherwise. *)
Lemma set_timezone_accepts_iff pytz uid tz_str db :
  ((set_timezone pytz uid [tz_str] db).2 = [TimezoneSet tz_str]
   ↔ Py.truthy tz_str = true ∧ is_Some (pytz tz_str))
  ∧ ((set_timezone pytz uid [tz_str] db).2 ≠ [TimezoneSet tz_str] →
     (set_timezone pytz uid [tz_str] db).1 = db).
Proof.
  unfold set_timezone; simpl.
  destruct (Py.truthy tz_str); simpl.
  - destruct (pytz tz_str) as [tz|]; simpl.
    + split; [|done]. split; [by eauto | done].
    + split; [|done]. split; [done | by intros [_ [? ?]]].
  - split; [|done]. split; [done | by intros [? _]].
Qed.

Example set_digest_25_99 :
  set_digest "1001" ["25:99"] Samples.db1 = (Samples.db1, [InvalidFormat]).
Proof. reflexivity. Qed.

Example set_timezone_not_a_zone :
  set_timezone Samples.iana_excerpt "1001" ["Not/AZone"] Samples.db1
  = (Samples.db1, [InvalidTimezone]).
Proof. reflexivity. Qed.

(** C8: the digest-time check is looser than the HH:MM it is written to
    enforce. [/set_digest 9:5] is accepted and "9:5" is stored as the digest
    time of the account "1003"; the sweep compares the stored string with
    the five characters [strftime] writes, so at no instant and in no zone
    does the local time of that account equal its digest time. *)
Theorem C8_set_digest_accepts_unpadded_time :
  let out := set_digest "1003" ["9:5"] Samples.db1 in
  let user := assign Samples.carol (set_digest_time "9:5") in
  Datetime.strptime_HM "9:5" = Some (9, 5)
  ∧ out.2 = [DigestSet "9:5"]
  ∧ select_user "1003" out.1 = Some user
  ∧ digest_time user = "9:5"
  ∧ ∀ pytz utc_now,
      user_time_str pytz utc_now user ≠ Some (digest_time user).
Proof.
  cbv zeta. do 4 (split; [reflexivity|]).
  intros pytz utc_now H. apply user_time_str_length in H. discriminate H.
Qed.

(** ** The pending items and the digest sweep *)

Lemma filter_all {A} (P : A → Prop) `{∀ x, Decision (P x)} (l : list A) :
  (∀ x, x ∈ l → P x) → filter P l = l.
Proof.
  induction l as [|x l IH]; intros Hall; [done|].
  rewrite filter_cons_True by (apply Hall; left).
  f_equal. apply IH. intros y Hy. apply Hall. by right.
Qed.

Lemma filter_none {A} (P : A → Prop) `{∀ x, Decision (P x)} (l : list A) :
  (∀ x, x ∈ l → ¬ P x) → filter P l = [].
Proof.
  induction l as [|x l IH]; intros Hall; [done|].
  rewrite filter_cons_False by (apply Hall; left).
  apply IH. intros y Hy. apply Hall. by right.
Qed.

Lemma NoDup_fmap_eq {A B} (f : A → B) (l : list A) x y :
  NoDup (f <$> l) → x ∈ l → y ∈ l → f x = f y → x = y.
Proof.
  induction l as [|a l IH]; intros Hnd Hx Hy Heq.
  - by apply elem_of_nil in Hx.
  - rewrite fmap_cons in Hnd. apply NoDup_cons in Hnd as [Ha Hnd].
    apply elem_of_cons in Hx as [->|Hx]; apply elem_of_cons in Hy as [->|Hy].
    + done.
    + exfalso. apply Ha. rewrite Heq. by apply list_elem_of_fmap_2.
    + exfalso. apply Ha. rewrite <- Heq. by apply list_elem_of_fmap_2.
    + by apply IH.
Qed.

Lemma mark_sent_ids (ids : list nat) (l : list Task) :
  id <$> ((λ t, if bool_decide (id t ∈ ids) then mark_sent t else t) <$> l)
  = id <$> l.
Proof.
  rewrite <- list_fmap_compose. apply list_fmap_ext. intros _ t _; simpl.
  by destruct (bool_decide (id t ∈ ids)).
Qed.

(** Marking items as sent removes exactly the marked ids from the unsent
    items of every user; it never brings an item back. *)
Lemma get_unsent_tasks_mark uid ids db :
  get_unsent_tasks uid (mark_tasks_sent ids db)
  = filter (λ t, id t ∉ ids) (get_unsent_tasks uid db).
Proof.
  unfold mark_tasks_sent. destruct ids as [|i ids]; simpl.
  { symmetry. apply filter_all. intros t _. apply not_elem_of_nil. }
  unfold get_unsent_tasks; simpl.
  induction (tasks db) as [|t l IH]; [done|].
  rewrite fmap_cons, !filter_cons, IH.
  destruct (bool_decide (id t ∈ i :: ids)) eqn:E.
  - apply bool_decide_eq_true in E.
    rewrite decide_False by (simpl; intros [_ ?]; done).
    destruct (decide (String.eqb (task_user_id t) uid = true
                      ∧ is_digest_sent t = false)); [|done].
    by rewrite filter_cons_False by (intros Hn; by apply Hn).
  - apply bool_decide_eq_false in E.
    destruct (decide (String.eqb (task_user_id t) uid = true
                      ∧ is_digest_sent t = false)); [|done].
    by rewrite filter_cons_True.
Qed.

Lemma get_unsent_tasks_elem uid db t :
  t ∈ get_unsent_tasks uid db
  ↔ t ∈ tasks db ∧ task_user_id t = uid ∧ is_digest_sent t = false.
Proof.
  unfold get_unsent_tasks. rewrite list_elem_of_filter, String.eqb_eq. tauto.
Qed.

(** Marking a user's own unsent items leaves that user with none. *)
Lemma get_unsent_tasks_mark_own uid db :
  get_unsent_tasks uid (mark_tasks_sent (id <$> get_unsent_tasks uid db) db)
  = [].
Proof.
  rewrite get_unsent_tasks_mark. apply filter_none.
  intros t Ht Hn. apply Hn. by apply list_elem_of_fmap_2.
Qed.

(** With unique ids, marking one user's unsent items leaves the unsent
    items of every other user as they were. *)
Lemma get_unsent_tasks_mark_other uid v db :
  NoDup (id <$> tasks db) → v ≠ uid →
  get_unsent_tasks uid (mark_tasks_sent (id <$> get_unsent_tasks v db) db)
  = get_unsent_tasks uid db.
Proof.
  intros Hnd Hne. rewrite get_unsent_tasks_mark. apply filter_all.
  intros t Ht Hin. apply list_elem_of_fmap in Hin as (t' & Heq & Ht').
  apply get_unsent_tasks_elem in Ht as (Ht & Hu & _).
  apply get_unsent_tasks_elem in Ht' as (Ht' & Hv & _).
  assert (t = t') by (by apply (NoDup_fmap_eq id (tasks db))).
  congruence.
Qed.

Lemma mark_tasks_sent_ids ids db :
  id <$> tasks (mark_tasks_sent ids db) = id <$> tasks db.
Proof.
  unfold mark_tasks_sent. destruct (negb (Py.truthy ids)); [done|].
  apply mark_sent_ids.
Qed.

Lemma mark_tasks_sent_users ids db :
  users (mark_tasks_sent ids db) = users db.
Proof. unfold mark_tasks_sent. by destruct (negb (Py.truthy ids)). Qed.

(** *** The invariants of the schema are kept by every operation *)

Lemma well_formed_empty : well_formed (mkDb [] [] 0).
Proof. split; [|split]; simpl; [apply NoDup_nil_2..|apply Forall_nil_2]. Qed.

Lemma well_formed_check_user_status uid db :
  well_formed db → well_formed (check_user_status uid db).2.
Proof.
  intros (Hu & Ht & Hs). unfold check_user_status.
  destruct (select_user uid db) eqn:E; [done|].
  split; [|done]. simpl. rewrite fmap_app. apply NoDup_app. split; [done|].
  split; [|apply NoDup_singleton].
  intros x Hx ->%list_elem_of_singleton.
  apply list_elem_of_fmap in Hx as (r & Hr & Hin).
  eapply select_user_None; eauto.
Qed.

Lemma well_formed_update_user uid kwargs db db' :
  well_formed db → update_user uid kwargs db = Returned db' → well_formed db'.
Proof.
  intros (Hu & Ht & Hs) H. destruct kwargs as [|a kwargs]; [done|].
  injection H as <-. split; [|done]. simpl.
  rewrite <- list_fmap_compose.
  erewrite list_fmap_ext; [exact Hu|]. intros _ r _; simpl.
  destruct (String.eqb (user_id r) uid); [|done].
  by rewrite fold_assign_user_id, assign_user_id.
Qed.

Lemma well_formed_add_task uid content db :
  well_formed db → well_formed (add_task uid content db).
Proof.
  intros (Hu & Ht & Hs). split; [done|]. simpl. split.
  - rewrite fmap_app. apply NoDup_app. split; [done|].
    split; [|apply NoDup_singleton].
    intros i Hi ->%list_elem_of_singleton.
    apply list_elem_of_fmap in Hi as (t & Heq & Hin).
    rewrite Forall_forall in Hs. specialize (Hs t Hin). simpl in Heq. lia.
  - apply Forall_app. split.
    + eapply Forall_impl; [exact Hs|]. intros t Hle; simpl in *. lia.
    + by apply Forall_singleton.
Qed.

Lemma well_formed_mark_tasks_sent ids db :
  well_formed db → well_formed (mark_tasks_sent ids db).
Proof.
  intros (Hu & Ht & Hs). split; [by rewrite mark_tasks_sent_users|].
  split; [by rewrite mark_tasks_sent_ids|].
  unfold mark_tasks_sent. destruct (negb (Py.truthy ids)); [done|]. simpl.
  apply Forall_fmap. eapply Forall_impl; [exact Hs|]. intros t Hle; simpl.
  by destruct (bool_decide (id t ∈ ids)).
Qed.

Section Sweep.
Variables (pytz : Pytz) (send : Sender) (utc_now : Z).
Implicit Types (st : Db * list Delivery) (user : User) (d : Delivery).
Implicit Types (uid : string) (db : Db).

Local Abbreviation step := (digest_user pytz send utc_now).

(** The loop body does nothing unless the user's local time equals the
    digest time and the user has unsent items. *)
Lemma digest_user_skips st user :
  user_time_str pytz utc_now user ≠ Some (digest_time user)
  ∨ get_unsent_tasks (user_id user) st.1 = [] →
  step st user = st.
Proof.
  destruct st as [db log]. unfold step, digest_user; simpl.
  destruct (user_time_str pytz utc_now user) as [now_str|]; [|done].
  destruct (String.eqb now_str (digest_time user)) eqn:E.
  - apply String.eqb_eq in E as ->. intros [H|H]; [done|]. by rewrite H.
  - done.
Qed.

(** Otherwise it calls the sender once, and marks the unsent items of the
    user if and only if the call returns. *)
Lemma digest_user_fires st user :
  user_time_str pytz utc_now user = Some (digest_time user) →
  get_unsent_tasks (user_id user) st.1 ≠ [] →
  let tasks := get_unsent_tasks (user_id user) st.1 in
  let body := digest_body tasks in
  step st user
  = if send (user_id user) body
    then (mark_tasks_sent (id <$> tasks) st.1,
          (st.2 ++ [mkDelivery (user_id user) body true])%list)
    else (st.1, (st.2 ++ [mkDelivery (user_id user) body false])%list).
Proof.
  destruct st as [db log]. unfold step, digest_user; simpl.
  intros -> Hne. rewrite String.eqb_refl.
  by destruct (get_unsent_tasks (user_id user) db).
Qed.

(** The two cases are exhaustive. *)
Lemma digest_user_dec st user :
  (user_time_str pytz utc_now user = Some (digest_time user)
   ∧ get_unsent_tasks (user_id user) st.1 ≠ [])
  ∨ (user_time_str pytz utc_now user ≠ Some (digest_time user)
     ∨ get_unsent_tasks (user_id user) st.1 = []).
Proof.
  destruct (decide (user_time_str pytz utc_now user
                    = Some (digest_time user))); [|by right; left].
  destruct (get_unsent_tasks (user_id user) st.1); [by right; right|].
  by left.
Qed.

Lemma fold_step_invariant (P : Db * list Delivery → Prop) l st :
  (∀ st user, user ∈ l → P st → P (step st user)) →
  P st → P (fold_left step l st).
Proof.
  revert st. induction l as [|u l IH]; intros st Hstep HP; [done|].
  simpl. apply IH.
  - intros st' user Hin. apply Hstep. by right.
  - apply Hstep; [left | done].
Qed.

(** The log only grows. *)
Lemma digest_user_log_mono st user d : d ∈ st.2 → d ∈ (step st user).2.
Proof.
  intros Hd. destruct (digest_user_dec st user) as [[Ht Hn]|Hskip].
  - rewrite digest_user_fires by done.
    destruct (send _ _); simpl; apply elem_of_app; by left.
  - by rewrite digest_user_skips.
Qed.

Lemma sweep_log_mono l st d : d ∈ st.2 → d ∈ (fold_left step l st).2.
Proof.
  intros Hd.
  apply (fold_step_invariant (λ st, d ∈ st.2)); [|done].
  intros st' user _. apply digest_user_log_mono.
Qed.

(** An entry the loop body adds is addressed to the user it handles. *)
Lemma digest_user_log_new st user d :
  d ∈ (step st user).2 → d ∈ st.2 ∨
    (chat_id d = user_id user
     ∧ user_time_str pytz utc_now user = Some (digest_time user)
     ∧ get_unsent_tasks (user_id user) st.1 ≠ []
     ∧ delivered d
       = send (user_id user)
           (digest_body (get_unsent_tasks (user_id user) st.1))).
Proof.
  destruct (digest_user_dec st user) as [[Ht Hn]|Hskip].
  - rewrite digest_user_fires by done.
    destruct (send _ _) eqn:E; simpl; intros [Hd|Hd]%elem_of_app;
      try (by left); apply list_elem_of_singleton in Hd as ->;
      right; simpl; done.
  - rewrite digest_user_skips by done. by left.
Qed.

Lemma digest_user_users st user : users (step st user).1 = users st.1.
Proof.
  destruct (digest_user_dec st user) as [[Ht Hn]|Hskip].
  - rewrite digest_user_fires by done.
    destruct (send _ _); simpl; [apply mark_tasks_sent_users | done].
  - by rewrite digest_user_skips.
Qed.

Lemma sweep_users db :
  users (daily_digest_job pytz send utc_now db).1 = users db.
Proof.
  unfold daily_digest_job, get_all_users.
  apply (fold_step_invariant (λ st, users st.1 = users db)); [|done].
  intros st user _ H. by rewrite digest_user_users.
Qed.

(** A user without unsent items has none after any step, and gets no
    message. *)
Lemma digest_user_nothing_unsent uid st user :
  get_unsent_tasks uid st.1 = [] ∧ ¬ fires_for uid st.2 →
  get_unsent_tasks uid (step st user).1 = []
  ∧ ¬ fires_for uid (step st user).2.
Proof.
  intros [Hemp Hlog]. split.
  - destruct (digest_user_dec st user) as [[Ht Hn]|Hskip].
    + rewrite digest_user_fires by done.
      destruct (send _ _); simpl; [|done].
      by rewrite get_unsent_tasks_mark, Hemp.
    + by rewrite digest_user_skips.
  - intros (d & Hd & Hchat). apply digest_user_log_new in Hd as [Hd|Hd].
    + apply Hlog. by exists d.
    + destruct Hd as (Hid & _ & Hne & _). apply Hne.
      by rewrite <- Hid, Hchat.
Qed.

(** Once a message to [uid] has been delivered, [uid] has no unsent
    items. *)
Lemma digest_user_delivered_none_unsent uid st user :
  (∀ d, d ∈ st.2 → chat_id d = uid → delivered d = true →
        get_unsent_tasks uid st.1 = []) →
  ∀ d, d ∈ (step st user).2 → chat_id d = uid → delivered d = true →
       get_unsent_tasks uid (step st user).1 = [].
Proof.
  intros Hinv d Hd Hchat Hdel.
  destruct (digest_user_dec st user) as [[Ht Hn]|Hskip].
  - rewrite digest_user_fires in Hd |- * by done.
    destruct (send _ _) eqn:E; simpl in *.
    + apply elem_of_app in Hd as [Hd|Hd].
      * by rewrite get_unsent_tasks_mark, (Hinv d).
      * apply list_elem_of_singleton in Hd as ->. simpl in Hchat.
        rewrite Hchat. apply get_unsent_tasks_mark_own.
    + apply elem_of_app in Hd as [Hd|Hd]; [by apply (Hinv d)|].
      apply list_elem_of_singleton in Hd as ->. done.
  - rewrite digest_user_skips in Hd |- * by done. by apply (Hinv d).
Qed.

(** With unique ids, a step for another user, or a step whose delivery
    fails, leaves the unsent items of [uid] as they were. *)
Lemma digest_user_keeps_unsent uid st user :
  NoDup (id <$> tasks st.1) →
  (user_id user = uid →
   send uid (digest_body (get_unsent_tasks uid st.1)) = false) →
  NoDup (id <$> tasks (step st user).1)
  ∧ get_unsent_tasks uid (step st user).1 = get_unsent_tasks uid st.1.
Proof.
  intros Hnd Hfail.
  destruct (digest_user_dec st user) as [[Ht Hn]|Hskip].
  - rewrite digest_user_fires by done.
    destruct (send (user_id user) _) eqn:E; simpl; [|by split].
    split; [by rewrite mark_tasks_sent_ids|].
    apply get_unsent_tasks_mark_other; [done|].
    intros Heq. rewrite Heq, Hfail in E; done.
  - rewrite digest_user_skips by done. by split.
Qed.

End Sweep.

(** C4: when a sweep has delivered the digest of an account (the sender
    returned, so the fetched items were marked), the account has no unsent
    item left, and a second sweep at the same reference time, whatever the
    sender does then, calls the sender for no message to that account and
    leaves it without unsent items. Nothing but the sent flag of the items
    is consulted: the store holds no other record of the digest. *)
Theorem C4_second_sweep_sends_nothing pytz send send' utc_now db uid :
  (∃ d, d ∈ (daily_digest_job pytz send utc_now db).2
        ∧ chat_id d = uid ∧ delivered d = true) →
  let db1 := (daily_digest_job pytz send utc_now db).1 in
  let second := daily_digest_job pytz send' utc_now db1 in
  get_unsent_tasks uid db1 = []
  ∧ ¬ fires_for uid second.2
  ∧ get_unsent_tasks uid second.1 = [].
Proof.
  intros (d & Hd & Hchat & Hdel) db1 second.
  assert (Hnone : get_unsent_tasks uid db1 = []).
  { unfold db1, daily_digest_job in *.
    revert d Hd Hchat Hdel.
    apply (fold_step_invariant pytz send utc_now
             (λ st, ∀ d, d ∈ st.2 → chat_id d = uid → delivered d = true →
                         get_unsent_tasks uid st.1 = [])).
    - intros st user _ Hinv.
      by apply digest_user_delivered_none_unsent.
    - intros d [] %elem_of_nil. }
  split; [exact Hnone|].
  assert (H : get_unsent_tasks uid second.1 = [] ∧ ¬ fires_for uid second.2).
  { unfold second, daily_digest_job.
    apply (fold_step_invariant pytz send' utc_now
             (λ st, get_unsent_tasks uid st.1 = [] ∧ ¬ fires_for uid st.2)).
    - intros st user _. apply digest_user_nothing_unsent.
    - split; [exact Hnone|]. intros (d' & Hd' & _).
      by apply elem_of_nil in Hd'. }
  by destruct H.
Qed.

Lemma C4_second_sweep_sends_nothing_witness :
  let first :=
    daily_digest_job Samples.iana_excerpt Samples.always_delivers
      Samples.reference_instant Samples.db1 in
  fires_for "1001" first.2
  ∧ ¬ fires_for "1001"
        (daily_digest_job Samples.iana_excerpt Samples.always_delivers
           Samples.reference_instant first.1).2.
Proof.
  split.
  - eexists. split; [left|reflexivity].
  - apply (C4_second_sweep_sends_nothing Samples.iana_excerpt
             Samples.always_delivers Samples.always_delivers
             Samples.reference_instant Samples.db1 "1001").
    eexists. split; [left|]. split; reflexivity.
Defined.

(** A sweep calls the sender for [uid] only if some row of that id has a
    local time equal to its digest time. *)
Lemma sweep_fires_only_if pytz send utc_now uid l st :
  fires_for uid (fold_left (digest_user pytz send utc_now) l st).2 →
  fires_for uid st.2
  ∨ ∃ user, user ∈ l ∧ user_id user = uid
            ∧ user_time_str pytz utc_now user = Some (digest_time user).
Proof.
  revert st. induction l as [|u l IH]; intros st Hf; [by left|].
  simpl in Hf. apply IH in Hf as [(d & Hd & Hchat)|(user & Hin & Hid & Ht)].
  - apply digest_user_log_new in Hd as [Hd|(Hid & Ht & _)].
    + left. by exists d.
    + right. exists u. split; [left|]. split; [congruence|done].
  - right. exists user. split; [by right|done].
Qed.

(** With unique item ids, a sweep calls the sender for [uid] if [uid] has
    unsent items and some row of that id has a local time equal to its
    digest time. *)
Lemma sweep_fires_if pytz send utc_now uid l st user :
  NoDup (id <$> tasks st.1) →
  get_unsent_tasks uid st.1 ≠ [] →
  user ∈ l → user_id user = uid →
  user_time_str pytz utc_now user = Some (digest_time user) →
  fires_for uid (fold_left (digest_user pytz send utc_now) l st).2.
Proof.
  revert st. induction l as [|u l IH]; intros st Hnd Hne Hin Hid Ht.
  { by apply elem_of_nil in Hin. }
  simpl.
  destruct (decide (user_id u = uid)) as [Hu|Hu].
  - destruct (digest_user_dec pytz utc_now st u) as [[Htu Hnu]|Hskip].
    + pose proof (digest_user_fires pytz send utc_now st u Htu Hnu) as Hstep.
      cbv zeta in Hstep.
      set (e := mkDelivery (user_id u)
                  (digest_body (get_unsent_tasks (user_id u) st.1))
                  (send (user_id u)
                     (digest_body (get_unsent_tasks (user_id u) st.1)))).
      exists e. split; [|done].
      apply sweep_log_mono. rewrite Hstep. unfold e.
      destruct (send (user_id u) _); simpl; apply elem_of_app; right; left.
    + rewrite (digest_user_skips pytz send utc_now st u Hskip).
      apply elem_of_cons in Hin as [->|Hin]; [|by apply (IH st)].
      exfalso. destruct Hskip as [Hs|Hs]; [done|]. by rewrite Hid in Hs.
  - apply elem_of_cons in Hin as [->|Hin]; [done|].
    destruct (digest_user_keeps_unsent pytz send utc_now uid st u Hnd)
      as [Hnd' Hsame]; [done|].
    apply (IH _ Hnd'); [by rewrite Hsame|done..].
Qed.

(** C5: for an account with at least one unsent item (in a store that
    respects its keys), a sweep at the reference instant calls the sender
    for that account if and only if the instant, converted to the account's
    zone and written as HH:MM, is the very string stored as its digest time.
    At 2024-01-15T10:00:00Z an account in Asia/Singapore (UTC+8) with digest
    time 18:00 is served; an account in UTC with digest time 18:00 is not. *)
Theorem C5_sweep_fires_iff_local_time_is_digest_time
    pytz send utc_now db user :
  well_formed db → user ∈ users db →
  get_unsent_tasks (user_id user) db ≠ [] →
  let fires :=
    fires_for (user_id user) (daily_digest_job pytz send utc_now db).2 in
  (fires ↔ user_time_str pytz utc_now user = Some (digest_time user))
  ∧ (utc_now = Datetime.utc_instant 2024 1 15 10 0 0 →
     digest_time user = "18:00" →
     (∀ tz, timezone user = "Asia/Singapore" →
            pytz "Asia/Singapore" = Some tz →
            Datetime.utcoffset tz utc_now = 8 * 3600 → fires)
     ∧ (∀ tz, timezone user = "UTC" → pytz "UTC" = Some tz →
              Datetime.utcoffset tz utc_now = 0 → ¬ fires)).
Proof.
  intros (Hu & Ht & _) Hin Hne fires.
  assert (Hiff : fires
                 ↔ user_time_str pytz utc_now user = Some (digest_time user)).
  { unfold fires, daily_digest_job, get_all_users. split.
    - intros Hf. apply sweep_fires_only_if in Hf as [(d & Hd & _)|Hf].
      { by apply elem_of_nil in Hd. }
      destruct Hf as (user' & Hin' & Hid & Htime).
      by rewrite <- (NoDup_fmap_eq user_id (users db) user' user Hu Hin' Hin Hid).
    - intros Htime. by apply (sweep_fires_if _ _ _ _ _ _ user). }
  split; [exact Hiff|].
  intros -> Hdigest. split.
  - intros tz Hzone Hpytz Hoff. apply Hiff.
    unfold user_time_str. rewrite Hzone, Hdigest. simpl. rewrite Hpytz. simpl.
    unfold Datetime.astimezone. rewrite Hoff. reflexivity.
  - intros tz Hzone Hpytz Hoff Hf. apply Hiff in Hf. revert Hf.
    unfold user_time_str. rewrite Hzone, Hdigest. simpl. rewrite Hpytz. simpl.
    unfold Datetime.astimezone. rewrite Hoff. discriminate.
Qed.

Lemma well_formed_db1 : well_formed Samples.db1.
Proof.
  split; [|split]; simpl.
  - repeat (apply NoDup_cons; split;
            [rewrite ?elem_of_cons, elem_of_nil; intuition discriminate|]).
    apply NoDup_nil_2.
  - repeat (apply NoDup_cons; split;
            [rewrite ?elem_of_cons, elem_of_nil; intuition discriminate|]).
    apply NoDup_nil_2.
  - repeat constructor.
Qed.

Lemma C5_sweep_fires_iff_local_time_is_digest_time_witness :
  let log :=
    (daily_digest_job Samples.iana_excerpt Samples.always_delivers
       Samples.reference_instant Samples.db1).2 in
  fires_for "1001" log ∧ ¬ fires_for "1002" log.
Proof.
  pose proof (C5_sweep_fires_iff_local_time_is_digest_time
                Samples.iana_excerpt Samples.always_delivers
                Samples.reference_instant Samples.db1 Samples.alice
                well_formed_db1 ltac:(left) ltac:(discriminate))
    as [_ Halice].
  pose proof (C5_sweep_fires_iff_local_time_is_digest_time
                Samples.iana_excerpt Samples.always_delivers
                Samples.reference_instant Samples.db1 Samples.bob
                well_formed_db1 ltac:(right; left) ltac:(discriminate))
    as [_ Hbob].
  destruct (Halice eq_refl eq_refl) as [Hsingapore _].
  destruct (Hbob eq_refl eq_refl) as [_ Hutc].
  split.
  - apply (Hsingapore Samples.singapore); reflexivity.
  - apply (Hutc Samples.utc); reflexivity.
Defined.

(** C6: in a store with unique item ids, when the sender raises on the
    digest of an account, the sweep marks none of that account's items: its
    unsent items are the same after the sweep as before, each still
    unsent. *)
Theorem C6_failed_delivery_marks_nothing pytz send utc_now db uid :
  well_formed db →
  send uid (digest_body (get_unsent_tasks uid db)) = false →
  let db' := (daily_digest_job pytz send utc_now db).1 in
  get_unsent_tasks uid db' = get_unsent_tasks uid db
  ∧ ∀ t, t ∈ get_unsent_tasks uid db → t ∈ tasks db' ∧ is_digest_sent t = false.
Proof.
  intros (_ & Ht & _) Hfail db'.
  assert (Hsame : NoDup (id <$> tasks db')
                  ∧ get_unsent_tasks uid db' = get_unsent_tasks uid db).
  { unfold db', daily_digest_job.
    apply (fold_step_invariant pytz send utc_now
             (λ st, NoDup (id <$> tasks st.1)
                    ∧ get_unsent_tasks uid st.1 = get_unsent_tasks uid db)).
    - intros st user _ [Hnd Heq].
      destruct (digest_user_keeps_unsent pytz send utc_now uid st user Hnd)
        as [Hnd' Heq'].
      + intros _. by rewrite Heq.
      + split; [done|]. by rewrite Heq'.
    - done. }
  destruct Hsame as [_ Hsame]. split; [exact Hsame|].
  intros t Hin. rewrite <- Hsame in Hin.
  apply get_unsent_tasks_elem in Hin as (Hin & _ & Hun). done.
Qed.

Lemma C6_failed_delivery_marks_nothing_witness :
  let out :=
    daily_digest_job Samples.iana_excerpt Samples.never_delivers
      Samples.reference_instant Samples.db1 in
  out.2 = [mkDelivery "1001"
             (digest_body (get_unsent_tasks "1001" Samples.db1)) false]
  ∧ get_unsent_tasks "1001" out.1 = get_unsent_tasks "1001" Samples.db1.
Proof.
  split; [reflexivity|].
  apply (C6_failed_delivery_marks_nothing Samples.iana_excerpt
           Samples.never_delivers Samples.reference_instant Samples.db1
           "1001" well_formed_db1 eq_refl).
Defined.

(** * Further properties of the store *)

Local Open Scope list_scope.

Lemma select_user_update_other uid v (f : User → User) (l : list User) :
  v ≠ uid → (∀ r, user_id (f r) = user_id r) →
  find (λ r, String.eqb (user_id r) v)
       ((λ r, if String.eqb (user_id r) uid then f r else r) <$> l)
  = find (λ r, String.eqb (user_id r) v) l.
Proof.
  intros Hne Hid. induction l as [|r l IH]; [done|].
  rewrite fmap_cons. simpl.
  destruct (String.eqb (user_id r) uid) eqn:E.
  - rewrite Hid. apply String.eqb_eq in E.
    assert (Hv : String.eqb (user_id r) v = false)
      by (apply String.eqb_neq; congruence).
    by rewrite Hv.
  - by rewrite IH.
Qed.

Lemma select_user_app_other uid v db :
  v ≠ uid →
  select_user v (mkDb (users db ++ [new_user uid]) (tasks db) (tasks_seq db))
  = select_user v db.
Proof.
  intros Hne. unfold select_user; simpl.
  induction (users db) as [|r l IH]; simpl.
  - assert (H : String.eqb uid v = false) by (by apply String.eqb_neq).
    by rewrite H.
  - by destruct (String.eqb (user_id r) v).
Qed.

(** X1: [check_user_status] is get-or-create. After the call the account
    exists and is the row returned; a row created by the call is on the free
    plan with no minutes used, no billing link, the digest at 18:00 and the
    zone UTC; a second call returns the same row and changes nothing; no
    other account and no pending item is touched. *)
Theorem check_user_status_get_or_create uid db :
  let row := (check_user_status uid db).1 in
  let db' := (check_user_status uid db).2 in
  select_user uid db' = Some row
  ∧ user_id row = uid
  ∧ (select_user uid db = None → row = new_user uid)
  ∧ (∀ r, select_user uid db = Some r → row = r ∧ db' = db)
  ∧ check_user_status uid db' = (row, db')
  ∧ (∀ v, v ≠ uid → select_user v db' = select_user v db)
  ∧ tasks db' = tasks db ∧ tasks_seq db' = tasks_seq db.
Proof.
  intros row db'.
  pose proof (check_user_status_select uid db) as Hsel. fold row db' in Hsel.
  split; [exact Hsel|].
  split; [by apply select_user_Some in Hsel as [_ ?]|].
  split; [|split; [|split; [|split]]].
  - intros Habs. unfold row, check_user_status. by rewrite Habs.
  - intros r Hr. unfold row, db', check_user_status. by rewrite Hr.
  - by apply check_user_status_existing.
  - intros v Hv. unfold db', check_user_status.
    destruct (select_user uid db); [done|]. by apply select_user_app_other.
  - unfold db', check_user_status. by destruct (select_user uid db).
Qed.

(** X2: [update_user] on an existing account writes the given fields to
    that account and to nothing else: the row read back is the old row with
    the fields assigned in order, every other account reads as before, the
    list of account ids and the pending items are unchanged. *)
Theorem update_user_writes_one_row uid kwargs db r :
  select_user uid db = Some r → kwargs ≠ [] →
  ∃ db', update_user uid kwargs db = Returned db'
         ∧ select_user uid db' = Some (fold_left assign kwargs r)
         ∧ (∀ v, v ≠ uid → select_user v db' = select_user v db)
         ∧ user_id <$> users db' = user_id <$> users db
         ∧ tasks db' = tasks db ∧ tasks_seq db' = tasks_seq db.
Proof.
  intros Hr Hne. destruct kwargs as [|a kwargs]; [done|].
  eexists. split; [reflexivity|]. simpl.
  split; [|split; [|split]].
  - apply (select_user_update uid (λ r, fold_left assign kwargs (assign r a)));
      [|exact Hr].
    intros r0. by rewrite fold_assign_user_id, assign_user_id.
  - intros v Hv.
    apply (select_user_update_other uid v
             (λ r, fold_left assign kwargs (assign r a))); [done|].
    intros r0. by rewrite fold_assign_user_id, assign_user_id.
  - rewrite <- list_fmap_compose. apply list_fmap_ext. intros _ r0 _; simpl.
    destruct (String.eqb (user_id r0) uid); [|done].
    by rewrite fold_assign_user_id, assign_user_id.
  - done.
Qed.

Lemma update_user_writes_one_row_witness :
  ∃ db', update_user "1003" [Database.set_timezone "Asia/Singapore"] Samples.db1
         = Returned db'
         ∧ select_user "1003" db'
           = Some (mkUser "1003" None 4 "free" None None None "18:00"
                     "Asia/Singapore")
         ∧ select_user "1001" db' = Some Samples.alice.
Proof.
  destruct (update_user_writes_one_row "1003" [Database.set_timezone "Asia/Singapore"]
              Samples.db1 Samples.carol eq_refl ltac:(discriminate))
    as (db' & Hret & Hrow & Hothers & _).
  exists db'. split; [exact Hret|]. split; [exact Hrow|].
  rewrite Hothers by discriminate. reflexivity.
Defined.

Lemma get_unsent_tasks_add_task_other uid v content db :
  v ≠ uid → get_unsent_tasks v (add_task uid content db) = get_unsent_tasks v db.
Proof.
  intros Hne. unfold get_unsent_tasks, add_task; simpl.
  rewrite filter_app, filter_cons_False, filter_nil, app_nil_r; [done|].
  simpl. intros [Heq _]. apply String.eqb_eq in Heq. done.
Qed.

(** X3: [add_task] appends one unsent item for its owner under an id no
    stored item has: the owner's unsent items are the former ones followed
    by the new one, the unsent items of every other account and the accounts
    themselves are unchanged. *)
Theorem add_task_appends_unsent uid content db :
  well_formed db →
  let new := mkTask (S (tasks_seq db)) uid content false in
  get_unsent_tasks uid (add_task uid content db)
  = (get_unsent_tasks uid db ++ [new])%list
  ∧ (∀ t, t ∈ tasks db → id t ≠ id new)
  ∧ (∀ v, v ≠ uid →
       get_unsent_tasks v (add_task uid content db) = get_unsent_tasks v db)
  ∧ users (add_task uid content db) = users db.
Proof.
  intros (_ & _ & Hseq) new. split; [|split; [|split]].
  - unfold get_unsent_tasks, add_task; simpl.
    rewrite filter_app, filter_cons_True, filter_nil; [done|].
    simpl. by rewrite String.eqb_refl.
  - intros t Ht. rewrite Forall_forall in Hseq. specialize (Hseq t Ht).
    simpl. lia.
  - intros v Hv. by apply get_unsent_tasks_add_task_other.
  - done.
Qed.

Lemma add_task_appends_unsent_witness :
  get_unsent_tasks "1001" (add_task "1001" "* water the plants" Samples.db1)
  = [mkTask 1 "1001" "* call the dentist" false;
     mkTask 4 "1001" "* water the plants" false].
Proof.
  destruct (add_task_appends_unsent "1001" "* water the plants" Samples.db1
              well_formed_db1) as [Happ _].
  exact Happ.
Defined.

Lemma mark_sent_twice (ids1 ids2 : list nat) (t : Task) :
  (if bool_decide (id (if bool_decide (id t ∈ ids1) then mark_sent t else t)
                   ∈ ids2)
   then mark_sent (if bool_decide (id t ∈ ids1) then mark_sent t else t)
   else if bool_decide (id t ∈ ids1) then mark_sent t else t)
  = if bool_decide (id t ∈ (ids1 ++ ids2)%list) then mark_sent t else t.
Proof.
  destruct (bool_decide (id t ∈ ids1)) eqn:E1; simpl;
    destruct (bool_decide (id t ∈ ids2)) eqn:E2;
    destruct (bool_decide (id t ∈ ids1 ++ ids2)) eqn:E3; try done;
    try apply bool_decide_eq_true in E1; try apply bool_decide_eq_true in E2;
    try apply bool_decide_eq_false in E1; try apply bool_decide_eq_false in E2;
    try apply bool_decide_eq_true in E3; try apply bool_decide_eq_false in E3;
    rewrite elem_of_app in E3; tauto.
Qed.

(** X4: [mark_tasks_sent] only ever sets the sent flag. Every row keeps its
    place, id, owner and content; a row that was sent stays sent; a row is
    sent afterwards exactly when it was sent before or its id is in the
    list. Marking two lists one after the other is marking their
    concatenation, so the order does not matter and marking twice is marking
    once. *)
Theorem mark_tasks_sent_only_sets_flags (ids ids' : list nat) db :
  Forall2 (λ t t', id t' = id t ∧ task_user_id t' = task_user_id t
                   ∧ task_content t' = task_content t
                   ∧ (is_digest_sent t' = true
                      ↔ is_digest_sent t = true ∨ id t ∈ ids))
          (tasks db) (tasks (mark_tasks_sent ids db))
  ∧ users (mark_tasks_sent ids db) = users db
  ∧ tasks_seq (mark_tasks_sent ids db) = tasks_seq db
  ∧ mark_tasks_sent ids' (mark_tasks_sent ids db)
    = mark_tasks_sent (ids ++ ids')%list db
  ∧ mark_tasks_sent ids (mark_tasks_sent ids' db)
    = mark_tasks_sent ids' (mark_tasks_sent ids db)
  ∧ mark_tasks_sent ids (mark_tasks_sent ids db) = mark_tasks_sent ids db.
Proof.
  assert (Hmap : ∀ (l : list nat) db0, mark_tasks_sent l db0
    = mkDb (users db0)
        ((λ t, if bool_decide (id t ∈ l) then mark_sent t else t) <$> tasks db0)
        (tasks_seq db0)).
  { intros l db0. unfold mark_tasks_sent. destruct l as [|i l]; simpl; [|done].
    destruct db0 as [us ts n]; simpl. f_equal.
    rewrite <- (list_fmap_id ts) at 1. apply list_fmap_ext.
    intros _ t _.
    try rewrite bool_decide_eq_false_2 by apply not_elem_of_nil. done. }
  assert (Hcomp : ∀ (l1 l2 : list nat) db0, mark_tasks_sent l2 (mark_tasks_sent l1 db0)
                               = mark_tasks_sent (l1 ++ l2)%list db0).
  { intros l1 l2 db0. rewrite !Hmap; simpl. f_equal.
    rewrite <- list_fmap_compose. apply list_fmap_ext. intros _ t _; simpl.
    apply mark_sent_twice. }
  assert (Hperm : ∀ (l1 l2 : list nat) db0, (∀ i, i ∈ l1 ↔ i ∈ l2) →
                  mark_tasks_sent l1 db0 = mark_tasks_sent l2 db0).
  { intros l1 l2 db0 Hiff. rewrite !Hmap. f_equal.
    apply list_fmap_ext. intros _ t _.
    destruct (bool_decide (id t ∈ l1)) eqn:E1.
    - apply bool_decide_eq_true in E1. apply Hiff in E1.
      by rewrite bool_decide_eq_true_2.
    - apply bool_decide_eq_false in E1.
      rewrite bool_decide_eq_false_2; [done|]. by rewrite <- Hiff. }
  split; [|split; [|split; [|split; [|split]]]].
  - rewrite Hmap; simpl. apply Forall2_fmap_r, Forall_Forall2_diag, Forall_forall.
    intros t _. unfold compose. case_bool_decide; simpl; intuition.
  - by rewrite Hmap.
  - by rewrite Hmap.
  - apply Hcomp.
  - rewrite !Hcomp. apply Hperm. intros i. rewrite !elem_of_app. tauto.
  - rewrite Hcomp. apply Hperm. intros i. rewrite elem_of_app. tauto.
Qed.

(** X5: the keys of the schema are kept by every statement of the module:
    from a store in which [user_id] is unique in [users] and [id] is unique
    in [tasks] (and was handed out by the counter), each of
    [check_user_status], [update_user], [add_task] and [mark_tasks_sent]
    leads to such a store again; the empty store is one. *)
Theorem store_operations_keep_keys db :
  well_formed db →
  well_formed (mkDb [] [] 0)
  ∧ (∀ uid, well_formed (check_user_status uid db).2)
  ∧ (∀ uid kwargs db',
       update_user uid kwargs db = Returned db' → well_formed db')
  ∧ (∀ uid content, well_formed (add_task uid content db))
  ∧ (∀ ids, well_formed (mark_tasks_sent ids db)).
Proof.
  intros Hwf. split; [apply well_formed_empty|].
  split; [intros uid; by apply well_formed_check_user_status|].
  split; [intros uid kwargs db'; by apply well_formed_update_user|].
  split; [intros uid content; by apply well_formed_add_task|].
  intros ids. by apply well_formed_mark_tasks_sent.
Qed.

Lemma store_operations_keep_keys_witness :
  well_formed (add_task "1002" "* buy stamps" Samples.db1).
Proof.
  apply (store_operations_keep_keys Samples.db1 well_formed_db1).
Defined.

(** * Further properties of the billing webhook *)

Lemma find_fmap_ext {A} (P Q : A → bool) (g : A → A) (l : list A) :
  (∀ x, x ∈ l → P (g x) = Q x) → find P (g <$> l) = g <$> find Q l.
Proof.
  induction l as [|x l IH]; intros H; [done|].
  rewrite fmap_cons. simpl. rewrite (H x) by left.
  destruct (Q x); [done|]. apply IH. intros y Hy. apply H. by right.
Qed.

Lemma assign_plan_stripe r v :
  stripe_customer_id (assign r (set_plan_tier v)) = stripe_customer_id r.
Proof. done. Qed.

(** With unique account ids, the row found by its billing reference is the
    row found by its own id. *)
Lemma get_user_by_stripe_id_select customer db user :
  NoDup (user_id <$> users db) →
  get_user_by_stripe_id customer db = Some user →
  select_user (user_id user) db = Some user.
Proof.
  intros Hnd Hfind. unfold get_user_by_stripe_id in Hfind.
  apply find_some in Hfind as [Hin _]. apply list_elem_of_In in Hin.
  destruct (select_user (user_id user) db) as [r|] eqn:E.
  - apply select_user_Some in E as [Hr Hid].
    by rewrite (NoDup_fmap_eq user_id (users db) r user Hnd Hr Hin Hid).
  - exfalso. by apply (proj1 (select_user_None _ _) E user Hin).
Qed.


(** The store after any request: the old one, or the old one with the plan
    (and, for a checkout, the billing reference) of the rows of one id
    rewritten. *)
Lemma webhook_store local req db :
  (webhook local req db).1.2 = db
  ∨ ∃ uid (f : User → User),
      (∀ r, f r = assign r (set_plan_tier "free")
            ∨ ∃ c, f r = assign (assign r (set_plan_tier "pro"))
                           (set_stripe_customer_id c))
      ∧ (webhook local req db).1.2
        = mkDb ((λ r, if String.eqb (user_id r) uid then f r else r)
                  <$> users db)
               (tasks db) (tasks_seq db).
Proof.
  destruct req as [| |event]; [by left..|]. unfold webhook.
  destruct (String.eqb (type event) "checkout.session.completed").
  { destruct (Py.truthy (client_reference_id (object event))); [|by left].
    right. eexists _, (λ r, assign (assign r (set_plan_tier "pro")) _).
    split; [|reflexivity]. intros r. right. by eexists. }
  destruct (String.eqb (type event) "customer.subscription.deleted").
  { destruct (get_user_by_stripe_id (customer (object event)) db) as [user|];
      [|by left].
    right. exists (user_id user), (λ r, assign r (set_plan_tier "free")).
    split; [|reflexivity]. intros r. by left. }
  destruct (String.eqb (type event) "customer.subscription.updated");
    [|by left].
  destruct (should_notify event); [|by left].
  destruct (get_user_by_stripe_id (customer (object event)) db); by left.
Qed.

(** X7: the webhook only ever writes the plan and the billing reference.
    Whatever the request, no account is created or removed, every account
    keeps its usage, its tokens, its digest time and its zone, the accounts
    of all ids but at most one are unchanged altogether, and the pending
    items are untouched. *)
Theorem webhook_writes_only_plan_and_billing_reference local req db :
  let db' := (webhook local req db).1.2 in
  Forall2 (λ r r', user_id r' = user_id r
                   ∧ minutes_used r' = minutes_used r
                   ∧ todoist_token r' = todoist_token r
                   ∧ notion_token r' = notion_token r
                   ∧ notion_page_id r' = notion_page_id r
                   ∧ digest_time r' = digest_time r
                   ∧ timezone r' = timezone r)
          (users db) (users db')
  ∧ (∃ uid, Forall2 (λ r r', user_id r ≠ uid → r' = r) (users db) (users db'))
  ∧ tasks db' = tasks db ∧ tasks_seq db' = tasks_seq db.
Proof.
  intros db'. unfold db'.
  destruct (webhook_store local req db) as [->|(uid & f & Hf & ->)].
  - split; [by apply Forall_Forall2_diag, Forall_forall|].
    split; [|done]. exists "". by apply Forall_Forall2_diag, Forall_forall.
  - simpl. split; [|split; [|done]].
    + apply Forall2_fmap_r, Forall_Forall2_diag, Forall_forall.
      intros r _. unfold compose.
      destruct (String.eqb (user_id r) uid); [|done].
      by destruct (Hf r) as [->|[c ->]].
    + exists uid. apply Forall2_fmap_r, Forall_Forall2_diag, Forall_forall.
      intros r _ Hne. unfold compose.
      apply String.eqb_neq in Hne. by rewrite Hne.
Qed.

Lemma webhook_deleted_found local event db user :
  type event = "customer.subscription.deleted" →
  get_user_by_stripe_id (customer (object event)) db = Some user →
  webhook local (Verified event) db
  = (Http200,
     mkDb ((λ r, if String.eqb (user_id r) (user_id user)
                 then assign r (set_plan_tier "free") else r) <$> users db)
          (tasks db) (tasks_seq db),
     [(user_id user, subscription_ended_msg)]).
Proof.
  intros Hty Hfind. unfold webhook. rewrite Hty, Hfind. reflexivity.
Qed.

(** X8: a SubscriptionDeleted event whose customer matches an account (in a
    store with unique account ids) sets the plan of that account to "free"
    and leaves its other fields, billing reference included, and all other
    accounts as they were; it posts the one "subscription ended" message, to
    that account; delivering it again leaves the store as the first delivery
    left it. When no account matches, nothing changes and nothing is
    posted. *)
Theorem webhook_subscription_deleted local event db :
  NoDup (user_id <$> users db) →
  type event = "customer.subscription.deleted" →
  let out := webhook local (Verified event) db in
  match get_user_by_stripe_id (customer (object event)) db with
  | Some user =>
      select_user (user_id user) out.1.2
      = Some (assign user (set_plan_tier "free"))
      ∧ (∀ v, v ≠ user_id user → select_user v out.1.2 = select_user v db)
      ∧ out.2 = [(user_id user, subscription_ended_msg)]
      ∧ (webhook local (Verified event) out.1.2).1.2 = out.1.2
  | None => out = (Http200, db, [])
  end.
Proof.
  intros Hnd Hty out. unfold out.
  destruct (get_user_by_stripe_id (customer (object event)) db)
    as [user|] eqn:Hfind.
  2:{ unfold webhook. rewrite Hty, Hfind. reflexivity. }
  rewrite (webhook_deleted_found local event db user Hty Hfind).
  cbn [fst snd]. split; [|split; [|split]].
  - unfold select_user; cbn [users].
    apply (select_user_update (user_id user)
             (λ r, assign r (set_plan_tier "free"))); [done|].
    by apply (get_user_by_stripe_id_select (customer (object event))).
  - intros v Hv. unfold select_user; cbn [users].
    by apply (select_user_update_other (user_id user) v
                (λ r, assign r (set_plan_tier "free"))).
  - done.
  - assert (Hagain :
      get_user_by_stripe_id (customer (object event))
        (mkDb ((λ r, if String.eqb (user_id r) (user_id user)
                     then assign r (set_plan_tier "free") else r)
                 <$> users db) (tasks db) (tasks_seq db))
      = Some (assign user (set_plan_tier "free"))).
    { unfold get_user_by_stripe_id; cbn [users].
      unfold get_user_by_stripe_id in Hfind.
      erewrite find_fmap_ext.
      - rewrite Hfind. simpl. by rewrite String.eqb_refl.
      - intros r _. cbv beta.
        by destruct (String.eqb (user_id r) (user_id user)). }
    rewrite (webhook_deleted_found local event _ _ Hty Hagain).
    cbn [fst snd users tasks tasks_seq]. f_equal.
    apply (update_twice (user_id user) (λ r, assign r (set_plan_tier "free")));
      done.
Qed.

Lemma webhook_subscription_deleted_witness :
  let deleted :=
    mkEvent "customer.subscription.deleted"
      (mkObject (Some "cus_A") None None None None) None in
  select_user "1001" (webhook Samples.utc (Verified deleted) Samples.db1).1.2
  = Some (mkUser "1001" (Some "cus_A") 12 "free" None None None "18:00"
            "Asia/Singapore").
Proof.
  intros deleted.
  pose proof (webhook_subscription_deleted Samples.utc deleted Samples.db1
                (proj1 well_formed_db1) eq_refl) as H.
  change (get_user_by_stripe_id (customer (object deleted)) Samples.db1)
    with (Some Samples.alice) in H.
  destruct H as [H _]. exact H.
Defined.

(** X9: subscribe, then cancel. In a store where no account is linked to
    the customer yet, a completed checkout for an existing account links it
    to the customer and puts it on the pro plan,
    so that the account is the one found by that customer; a later
    SubscriptionDeleted event for the customer puts this account, and no
    other, back on the free plan with the link kept, and tells it so. *)
Theorem checkout_then_deletion local checkout deleted db uid c r :
  select_user uid db = Some r →
  Py.truthy uid = true →
  (∀ r0, r0 ∈ users db → stripe_customer_id r0 ≠ Some c) →
  type checkout = "checkout.session.completed" →
  client_reference_id (object checkout) = Some uid →
  customer (object checkout) = Some c →
  type deleted = "customer.subscription.deleted" →
  customer (object deleted) = Some c →
  let db1 := (webhook local (Verified checkout) db).1.2 in
  let out := webhook local (Verified deleted) db1 in
  let pro := assign (assign r (set_plan_tier "pro"))
               (set_stripe_customer_id (Some c)) in
  select_user uid db1 = Some pro
  ∧ get_user_by_stripe_id (Some c) db1 = Some pro
  ∧ select_user uid out.1.2 = Some (assign pro (set_plan_tier "free"))
  ∧ out.2 = [(uid, subscription_ended_msg)]
  ∧ (∀ v, v ≠ uid → select_user v out.1.2 = select_user v db).
Proof.
  intros Hr Huid Hfree Hty1 Hcr Hc1 Hty2 Hc2 db1 out pro.
  set (g := λ r, if String.eqb (user_id r) uid
                 then assign (assign r (set_plan_tier "pro"))
                        (set_stripe_customer_id (Some c))
                 else r).
  assert (Hdb1 : db1 = mkDb (g <$> users db) (tasks db) (tasks_seq db)).
  { unfold db1. rewrite webhook_checkout by (by rewrite ?Hcr).
    by rewrite Hcr, Hc1. }
  assert (Hsel1 : select_user uid db1 = Some pro).
  { rewrite Hdb1. unfold select_user; simpl.
    by apply (select_user_update uid
                (λ r, assign (assign r (set_plan_tier "pro"))
                        (set_stripe_customer_id (Some c)))). }
  assert (Hfind1 : get_user_by_stripe_id (Some c) db1 = Some pro).
  { rewrite Hdb1. unfold get_user_by_stripe_id; simpl.
    erewrite (find_fmap_ext _ (λ r, String.eqb (user_id r) uid)).
    - pose proof (select_user_Some _ _ _ Hr) as [_ Hid].
      unfold select_user in Hr. rewrite Hr. simpl. unfold g.
      by rewrite Hid, String.eqb_refl.
    - intros x Hx. unfold g.
      destruct (String.eqb (user_id x) uid); simpl.
      + apply String.eqb_refl.
      + destruct (stripe_customer_id x) as [c'|] eqn:E; [|done].
        apply String.eqb_neq. intros ->. by apply (Hfree x Hx). }
  assert (Hpro : user_id pro = uid).
  { apply select_user_Some in Hr as [_ Hid]. exact Hid. }
  assert (Hfind2 : get_user_by_stripe_id (customer (object deleted)) db1
                   = Some pro) by (by rewrite Hc2).
  unfold out. rewrite (webhook_deleted_found local deleted db1 pro Hty2 Hfind2).
  rewrite Hpro. cbn [fst snd].
  split; [exact Hsel1|]. split; [exact Hfind1|].
  split; [|split; [done|]].
  - unfold select_user; cbn [users].
    by apply (select_user_update uid (λ r, assign r (set_plan_tier "free"))).
  - intros v Hv. unfold select_user; cbn [users].
    rewrite (select_user_update_other uid v
               (λ r, assign r (set_plan_tier "free"))) by done.
    rewrite Hdb1; cbn [users].
    by apply (select_user_update_other uid v
                (λ r, assign (assign r (set_plan_tier "pro"))
                        (set_stripe_customer_id (Some c)))).
Qed.

Lemma checkout_then_deletion_witness :
  let deleted :=
    mkEvent "customer.subscription.deleted"
      (mkObject (Some "cus_B") None None None None) None in
  let db1 :=
    (webhook Samples.utc (Verified Samples.checkout_completed) Samples.db1).1.2
  in
  get_user_by_stripe_id (Some "cus_B") db1
  = Some (mkUser "1002" (Some "cus_B") 5 "pro" None None None "18:00" "UTC")
  ∧ select_user "1002" (webhook Samples.utc (Verified deleted) db1).1.2
    = Some (mkUser "1002" (Some "cus_B") 5 "free" None None None "18:00" "UTC").
Proof.
  intros deleted db1.
  assert (Hfree : ∀ r0, r0 ∈ users Samples.db1 →
                        stripe_customer_id r0 ≠ Some "cus_B").
  { intros r0 Hin. simpl in Hin. rewrite !elem_of_cons, elem_of_nil in Hin.
    destruct Hin as [->|[->|[->|[]]]]; discriminate. }
  destruct (checkout_then_deletion Samples.utc Samples.checkout_completed
              deleted Samples.db1 "1002" "cus_B" Samples.bob
              eq_refl eq_refl Hfree
              eq_refl eq_refl eq_refl eq_refl eq_refl)
    as (_ & Hfind & Hsel & _).
  split; [exact Hfind | exact Hsel].
Defined.

(** X10: a SubscriptionUpdated event never changes the store (the plan stays
    as it is until the subscription is deleted) and posts at most one
    message. An event that names no account is a no-op answered 200: an
    event of an unknown type, a checkout without client reference, and a
    deleted or updated subscription whose customer matches no account. *)
Theorem webhook_noop_events local event db :
  let out := webhook local (Verified event) db in
  (type event = "customer.subscription.updated" →
   out.1.2 = db ∧ (length out.2 ≤ 1)%nat)
  ∧ ((type event ≠ "checkout.session.completed"
      ∧ type event ≠ "customer.subscription.deleted"
      ∧ type event ≠ "customer.subscription.updated")
     ∨ (type event = "checkout.session.completed"
        ∧ Py.truthy (client_reference_id (object event)) = false)
     ∨ (type event ≠ "checkout.session.completed"
        ∧ get_user_by_stripe_id (customer (object event)) db = None) →
     out = (Http200, db, [])).
Proof.
  intros out. unfold out, webhook. split.
  - intros ->.
    change (String.eqb "customer.subscription.updated"
              "checkout.session.completed") with false.
    change (String.eqb "customer.subscription.updated"
              "customer.subscription.deleted") with false.
    change (String.eqb "customer.subscription.updated"
              "customer.subscription.updated") with true.
    cbv iota. destruct (should_notify event); [|simpl; split; [done|lia]].
    destruct (get_user_by_stripe_id (customer (object event)) db);
      simpl; split; (done || lia).
  - intros [(H1 & H2 & H3)|[[H1 H2]|[H1 H2]]].
    + apply String.eqb_neq in H1, H2, H3. by rewrite H1, H2, H3.
    + rewrite H1, H2. reflexivity.
    + apply String.eqb_neq in H1. rewrite H1, H2.
      destruct (String.eqb (type event) "customer.subscription.deleted");
        [done|].
      destruct (String.eqb (type event) "customer.subscription.updated");
        [|done].
      by destruct (should_notify event).
Qed.

(** * Further properties of the voice handler *)

Lemma check_user_status_other uid v db :
  v ≠ uid → select_user v (check_user_status uid db).2 = select_user v db.
Proof.
  intros Hv. unfold check_user_status.
  destruct (select_user uid db); [done|]. by apply select_user_app_other.
Qed.

Lemma check_user_status_tasks uid db :
  tasks (check_user_status uid db).2 = tasks db
  ∧ tasks_seq (check_user_status uid db).2 = tasks_seq db.
Proof. unfold check_user_status. by destruct (select_user uid db). Qed.

(** The store after [handle_voice]: the one [check_user_status] left, or
    that one with the usage of the caller raised and one item appended. *)
Lemma handle_voice_store uid note db :
  let user := (check_user_status uid db).1 in
  let db0 := (check_user_status uid db).2 in
  let used := minutes_used user in
  let mins := duration_mins note in
  (handle_voice uid note db).1 = db0
  ∨ (∃ text,
      (handle_voice uid note db).1
      = add_task uid text
          (mkDb ((λ r, if String.eqb (user_id r) uid
                       then assign r (set_minutes_used (used + mins))
                       else r) <$> users db0)
                (tasks db0) (tasks_seq db0)))
    ∧ too_long used mins (limit_of (plan_tier user)) = false.
Proof.
  intros user db0 used mins. rewrite handle_voice_cases.
  fold user db0 used mins.
  destruct (limit_reached used (limit_of (plan_tier user))); [by left|].
  destruct (too_long used mins (limit_of (plan_tier user))); [by left|].
  destruct (download note); [|by left].
  destruct (transcription note) as [text|]; [|by left].
  destruct (Py.truthy text); [|by left].
  right. split; [|done]. exists text.
  by destruct (closing_replies note).
Qed.

(** X11: [handle_voice] writes to the caller's account only. Every other
    account reads as before and keeps its unsent items; the stored items
    stay as they are, with at most one new unsent item of the caller
    appended under the next id. *)
Theorem handle_voice_touches_only_caller uid note db :
  let out := handle_voice uid note db in
  (∀ v, v ≠ uid → select_user v out.1 = select_user v db)
  ∧ (∀ v, v ≠ uid → get_unsent_tasks v out.1 = get_unsent_tasks v db)
  ∧ (tasks out.1 = tasks db
     ∨ ∃ text,
         tasks out.1 = tasks db ++ [mkTask (S (tasks_seq db)) uid text false]).
Proof.
  intros out. unfold out.
  destruct (check_user_status_tasks uid db) as [Htasks Hseq].
  destruct (handle_voice_store uid note db) as [->|[[text ->] _]].
  - split; [intros v Hv; by apply check_user_status_other|].
    split; [|by left].
    intros v _. unfold get_unsent_tasks. by rewrite Htasks.
  - split; [|split].
    + intros v Hv. unfold select_user; cbn [users add_task].
      rewrite (select_user_update_other uid v
                 (λ r, assign r (set_minutes_used _))) by done.
      by apply check_user_status_other.
    + intros v Hv. rewrite get_unsent_tasks_add_task_other by done.
      unfold get_unsent_tasks; cbn [tasks]. by rewrite Htasks.
    + right. exists text. cbn [tasks add_task tasks_seq].
      by rewrite Htasks, Hseq.
Qed.

(** One request: the caller's row afterwards is the row before, with the
    usage either unchanged or raised by the duration to a total within the
    limit. *)
Lemma handle_voice_usage uid note db r :
  select_user uid db = Some r →
  select_user uid (handle_voice uid note db).1 = Some r
  ∨ (select_user uid (handle_voice uid note db).1
     = Some (assign r (set_minutes_used (minutes_used r + duration_mins note)))
     ∧ (minutes_used r + duration_mins note <= limit_of (plan_tier r))%Q).
Proof.
  intros Hr.
  pose proof (handle_voice_store uid note db) as H. cbv zeta in H.
  rewrite (check_user_status_existing uid db r Hr) in H. cbn [fst snd] in H.
  destruct H as [->|[[text ->] Hfits]]; [by left|].
  right. split.
  - unfold select_user; cbn [users add_task].
    by apply (select_user_update uid (λ r0, assign r0 (set_minutes_used _))).
  - unfold too_long in Hfits. apply negb_false_iff in Hfits.
    by apply Qle_bool_iff.
Qed.

(** X12: no sequence of voice messages takes an account above the limit of
    its plan. For an account whose usage is within the limit, after any
    list of voice messages handled one after the other the usage is still
    within the limit and the plan is the same; when no duration is negative
    the usage is not less than before. *)
Theorem voice_notes_stay_within_limit uid notes db r :
  select_user uid db = Some r →
  (minutes_used r <= limit_of (plan_tier r))%Q →
  Forall (λ note, 0 ≤ duration note) notes →
  ∃ r', select_user uid
          (fold_left (λ store note, (handle_voice uid note store).1) notes db)
        = Some r'
        ∧ plan_tier r' = plan_tier r
        ∧ (minutes_used r <= minutes_used r')%Q
        ∧ (minutes_used r' <= limit_of (plan_tier r))%Q.
Proof.
  revert db r. induction notes as [|note notes IH]; intros db r Hr Hle Hdur.
  { exists r. simpl. repeat split; [done|lra|done]. }
  apply Forall_cons in Hdur as [Hd Hdur]. simpl.
  pose proof (duration_mins_nonneg note Hd) as Hp.
  destruct (handle_voice_usage uid note db r Hr) as [H|[H Hfits]].
  - by apply IH.
  - destruct (IH _ _ H) as (r' & Hr' & Hplan & Hlo & Hhi); [done..|].
    exists r'. simpl in *. repeat split; [done..|lra|done].
Qed.

Lemma voice_notes_stay_within_limit_witness :
  ∃ r', select_user "1003"
          (fold_left (λ store note, (handle_voice "1003" note store).1)
             [Samples.voice_note 30; Samples.voice_note 60;
              Samples.voice_note 30]
             Samples.db1)
        = Some r'
        ∧ (minutes_used r' <= 5)%Q.
Proof.
  destruct (voice_notes_stay_within_limit "1003"
              [Samples.voice_note 30; Samples.voice_note 60;
               Samples.voice_note 30]
              Samples.db1 Samples.carol eq_refl)
    as (r' & Hr' & _ & _ & Hhi).
  - vm_compute. discriminate.
  - repeat constructor; simpl; lia.
  - exists r'. split; [exact Hr' | exact Hhi].
Defined.

(** * Invariants kept by the handlers *)

Lemma well_formed_rewrite_users (g : User → User) db :
  (∀ r, user_id (g r) = user_id r) → well_formed db →
  well_formed (mkDb (g <$> users db) (tasks db) (tasks_seq db)).
Proof.
  intros Hid (Hu & Ht & Hs). split; [|done]. simpl.
  rewrite <- list_fmap_compose. erewrite list_fmap_ext; [exact Hu|].
  intros _ r _. apply Hid.
Qed.

Lemma well_formed_webhook local req db :
  well_formed db → well_formed (webhook local req db).1.2.
Proof.
  intros Hwf. destruct (webhook_store local req db) as [->|(uid & f & Hf & ->)];
    [done|].
  apply well_formed_rewrite_users; [|done]. intros r.
  destruct (String.eqb (user_id r) uid); [|done].
  by destruct (Hf r) as [->|[c ->]].
Qed.

Lemma well_formed_handle_voice uid note db :
  well_formed db → well_formed (handle_voice uid note db).1.
Proof.
  intros Hwf. pose proof (well_formed_check_user_status uid db Hwf) as Hwf0.
  destruct (handle_voice_store uid note db) as [->|[[text ->] _]]; [done|].
  apply well_formed_add_task, well_formed_rewrite_users; [|done].
  intros r. by destruct (String.eqb (user_id r) uid).
Qed.

Lemma well_formed_set_column column usage saved uid args db :
  well_formed db →
  well_formed (Commands.set_column column usage saved uid args db).1.
Proof.
  intros Hwf. unfold Commands.set_column.
  destruct (head args) as [token|]; [|done].
  destruct (Py.truthy token); [|done]. simpl.
  apply (well_formed_update_user uid [column token] db); done.
Qed.

Lemma well_formed_daily_digest_job pytz send utc_now db :
  well_formed db → well_formed (daily_digest_job pytz send utc_now db).1.
Proof.
  intros Hwf. unfold daily_digest_job.
  apply (fold_step_invariant pytz send utc_now (λ st, well_formed st.1));
    [|done].
  intros st user _ Hst.
  destruct (digest_user_dec pytz utc_now st user) as [[Ht Hn]|Hskip].
  - rewrite digest_user_fires by done.
    destruct (send _ _); simpl; [|done].
    by apply well_formed_mark_tasks_sent.
  - by rewrite digest_user_skips.
Qed.

(** X13: every handler keeps the keys of the schema. From a store in which
    account ids and item ids are unique, the billing webhook, the voice
    handler, the settings commands, [/start] and the digest sweep each lead
    to such a store again, whatever they are called with. *)
Theorem handlers_keep_keys db :
  well_formed db →
  (∀ local req, well_formed (webhook local req db).1.2)
  ∧ (∀ uid note, well_formed (handle_voice uid note db).1)
  ∧ (∀ uid args, well_formed (set_digest uid args db).1)
  ∧ (∀ pytz uid args, well_formed (Bot.set_timezone pytz uid args db).1)
  ∧ (∀ uid args, well_formed (Commands.set_todoist uid args db).1
                 ∧ well_formed (Commands.set_notion uid args db).1
                 ∧ well_formed (Commands.set_notion_page uid args db).1)
  ∧ (∀ uid, well_formed (Commands.start uid db).1)
  ∧ (∀ pytz send utc_now,
       well_formed (daily_digest_job pytz send utc_now db).1).
Proof.
  intros Hwf.
  split; [intros; by apply well_formed_webhook|].
  split; [intros; by apply well_formed_handle_voice|].
  split.
  { intros uid args. unfold set_digest.
    destruct (head args) as [time_str|]; [|done].
    destruct (Datetime.strptime_HM time_str); [|done]. simpl.
    by apply (well_formed_update_user uid [set_digest_time time_str] db). }
  split.
  { intros pytz uid args. unfold Bot.set_timezone.
    destruct (head args) as [tz_str|]; [|done].
    destruct (Py.truthy tz_str); [|done]. simpl.
    destruct (pytz tz_str); [|done]. simpl.
    by apply (well_formed_update_user uid [Database.set_timezone tz_str] db). }
  split.
  { intros uid args. repeat split; by apply well_formed_set_column. }
  split; [intros uid; by apply well_formed_check_user_status|].
  intros. by apply well_formed_daily_digest_job.
Qed.

Lemma handlers_keep_keys_witness :
  well_formed
    (handle_voice "2001" (Samples.voice_note 45)
       (webhook Samples.utc (Verified Samples.checkout_completed)
          Samples.db1).1.2).1.
Proof.
  apply (handlers_keep_keys _).
  apply (handlers_keep_keys Samples.db1 well_formed_db1).
Defined.

(** X14: the plan of every account is "free" or "pro" and its usage is not
    negative, and this stays so: in a store of such accounts the billing
    webhook, [/start] and the voice handler (for a duration that is not
    negative) lead to a store of such accounts again. *)
Theorem handlers_keep_plan_and_usage db :
  Forall (λ r, (plan_tier r = "free" ∨ plan_tier r = "pro")
               ∧ (0 <= minutes_used r)%Q) (users db) →
  let valid := λ db', Forall (λ r, (plan_tier r = "free" ∨ plan_tier r = "pro")
                                   ∧ (0 <= minutes_used r)%Q) (users db') in
  (∀ local req, valid (webhook local req db).1.2)
  ∧ (∀ uid, valid (Commands.start uid db).1)
  ∧ (∀ uid note, 0 ≤ duration note → valid (handle_voice uid note db).1).
Proof.
  intros Hdb valid.
  assert (Hstart : ∀ uid, valid (check_user_status uid db).2).
  { intros uid. unfold valid, check_user_status.
    destruct (select_user uid db); [done|]. simpl.
    apply Forall_app. split; [done|]. apply Forall_singleton. simpl.
    split; [by left | done]. }
  split; [|split; [exact Hstart|]].
  - intros local req. unfold valid.
    destruct (webhook_store local req db) as [->|(uid & f & Hf & ->)]; [done|].
    simpl. apply Forall_fmap. eapply Forall_impl; [exact Hdb|].
    intros r [Hplan Huse]. simpl.
    destruct (String.eqb (user_id r) uid); [|done].
    destruct (Hf r) as [->|[c ->]]; simpl; tauto.
  - intros uid note Hdur. unfold valid.
    pose proof (duration_mins_nonneg note Hdur) as Hp.
    destruct (handle_voice_store uid note db) as [->|[[text ->] _]];
      [apply Hstart|].
    cbn [users add_task]. apply Forall_fmap.
    eapply Forall_impl; [apply Hstart|].
    intros r [Hplan Huse]. simpl.
    destruct (String.eqb (user_id r) uid); [|done].
    simpl. split; [done|].
    pose proof (check_user_status_select uid db) as Hsel.
    apply select_user_Some in Hsel as [Hin _].
    pose proof (Hstart uid) as Hall. unfold valid in Hall.
    rewrite Forall_forall in Hall. destruct (Hall _ Hin) as [_ Hused]. lra.
Qed.

Lemma handlers_keep_plan_and_usage_witness :
  Forall (λ r, (plan_tier r = "free" ∨ plan_tier r = "pro")
               ∧ (0 <= minutes_used r)%Q)
         (users (handle_voice "1003" (Samples.voice_note 30) Samples.db1).1).
Proof.
  assert (H : Forall (λ r, (plan_tier r = "free" ∨ plan_tier r = "pro")
                           ∧ (0 <= minutes_used r)%Q) (users Samples.db1)).
  { repeat constructor; simpl; (by left) || (by right) || (vm_compute; discriminate).
  }
  destruct (handlers_keep_plan_and_usage Samples.db1 H) as (_ & _ & Hvoice).
  apply (Hvoice "1003" (Samples.voice_note 30)). simpl. lia.
Defined.

(** * Further properties of the digest sweep *)

(** X15: a sweep changes nothing but sent flags, and those only from unsent
    to sent: the accounts are untouched, no item is added or removed, every
    item keeps its id, owner and content, and an item that was sent stays
    sent. *)
Theorem sweep_only_sets_sent_flags pytz send utc_now db :
  let db' := (daily_digest_job pytz send utc_now db).1 in
  users db' = users db
  ∧ tasks_seq db' = tasks_seq db
  ∧ Forall2 (λ t t', id t' = id t ∧ task_user_id t' = task_user_id t
                     ∧ task_content t' = task_content t
                     ∧ (is_digest_sent t = true → is_digest_sent t' = true))
            (tasks db) (tasks db').
Proof.
  intros db'. unfold db', daily_digest_job.
  apply (fold_step_invariant pytz send utc_now
           (λ st, users st.1 = users db ∧ tasks_seq st.1 = tasks_seq db
                  ∧ Forall2 (λ t t', id t' = id t
                                     ∧ task_user_id t' = task_user_id t
                                     ∧ task_content t' = task_content t
                                     ∧ (is_digest_sent t = true
                                        → is_digest_sent t' = true))
                            (tasks db) (tasks st.1))).
  - intros st user _ (Hu & Hs & Ht).
    destruct (digest_user_dec pytz utc_now st user) as [[Hm Hn]|Hskip].
    2:{ by rewrite digest_user_skips. }
    rewrite digest_user_fires by done.
    destruct (send _ _); simpl; [|done].
    unfold mark_tasks_sent.
    destruct (negb (Py.truthy (id <$> get_unsent_tasks (user_id user) st.1)));
      [done|].
    simpl. split; [done|]. split; [done|].
    apply Forall2_fmap_r. eapply Forall2_impl; [exact Ht|].
    intros t t' (H1 & H2 & H3 & H4). unfold compose.
    case_bool_decide; simpl; repeat split; auto.
  - repeat split; try done.
    apply Forall_Forall2_diag, Forall_forall. by intros t _.
Qed.

(** X16: in a store with unique item ids, a sweep marks the items of
    exactly the accounts whose digest was delivered: an account to which a
    message was delivered has no unsent item afterwards, and an account to
    which none was delivered has the same unsent items as before. *)
Theorem sweep_marks_exactly_the_delivered pytz send utc_now db uid :
  well_formed db →
  let out := daily_digest_job pytz send utc_now db in
  ((∃ d, d ∈ out.2 ∧ chat_id d = uid ∧ delivered d = true) →
   get_unsent_tasks uid out.1 = [])
  ∧ ((¬ ∃ d, d ∈ out.2 ∧ chat_id d = uid ∧ delivered d = true) →
     get_unsent_tasks uid out.1 = get_unsent_tasks uid db).
Proof.
  intros (_ & Hids & _) out. unfold out, daily_digest_job.
  apply (fold_step_invariant pytz send utc_now
           (λ st, NoDup (id <$> tasks st.1)
                  ∧ ((∃ d, d ∈ st.2 ∧ chat_id d = uid ∧ delivered d = true) →
                     get_unsent_tasks uid st.1 = [])
                  ∧ ((¬ ∃ d, d ∈ st.2 ∧ chat_id d = uid ∧ delivered d = true)
                     → get_unsent_tasks uid st.1 = get_unsent_tasks uid db))).
  - intros st user _ (Hnd & Hyes & Hno).
    destruct (digest_user_dec pytz utc_now st user) as [[Hm Hn]|Hskip].
    2:{ by rewrite digest_user_skips. }
    rewrite digest_user_fires by done.
    destruct (send (user_id user) _) eqn:E; cbn [fst snd].
    + split; [by rewrite mark_tasks_sent_ids|].
      destruct (decide (user_id user = uid)) as [<-|Hne].
      * split; [intros _; apply get_unsent_tasks_mark_own|].
        intros Hnone. exfalso. apply Hnone. eexists. split.
        { apply elem_of_app. right. left. }
        done.
      * rewrite get_unsent_tasks_mark_other by done. split.
        -- intros (d & Hd & Hc & Hdel). apply Hyes.
           apply elem_of_app in Hd as [Hd|Hd]; [by exists d|].
           apply list_elem_of_singleton in Hd as ->. done.
        -- intros Hnone. apply Hno. intros (d & Hd & Hc & Hdel).
           apply Hnone. exists d. split; [|done]. apply elem_of_app. by left.
    + split; [done|]. split.
      * intros (d & Hd & Hc & Hdel). apply Hyes.
        apply elem_of_app in Hd as [Hd|Hd]; [by exists d|].
        apply list_elem_of_singleton in Hd as ->. done.
      * intros Hnone. apply Hno. intros (d & Hd & Hc & Hdel).
        apply Hnone. exists d. split; [|done]. apply elem_of_app. by left.
  - split; [done|]. split; [|done].
    intros (d & Hd & _). by apply elem_of_nil in Hd.
Qed.

Lemma sweep_marks_exactly_the_delivered_witness :
  let out :=
    daily_digest_job Samples.iana_excerpt Samples.always_delivers
      Samples.reference_instant Samples.db1 in
  get_unsent_tasks "1001" out.1 = []
  ∧ get_unsent_tasks "1002" out.1 = get_unsent_tasks "1002" Samples.db1.
Proof.
  split.
  - apply (sweep_marks_exactly_the_delivered Samples.iana_excerpt
             Samples.always_delivers Samples.reference_instant Samples.db1
             "1001" well_formed_db1).
    eexists. split; [left|]. split; reflexivity.
  - apply (sweep_marks_exactly_the_delivered Samples.iana_excerpt
             Samples.always_delivers Samples.reference_instant Samples.db1
             "1002" well_formed_db1).
    intros (d & Hd & Hc & _). simpl in Hd.
    apply list_elem_of_singleton in Hd as ->. discriminate Hc.
Defined.

Lemma digest_user_ids pytz send utc_now (st : Db * list Delivery) user :
  id <$> tasks (digest_user pytz send utc_now st user).1 = id <$> tasks st.1.
Proof.
  destruct (digest_user_dec pytz utc_now st user) as [[Hm Hn]|Hskip].
  - rewrite digest_user_fires by done.
    destruct (send _ _); simpl; [apply mark_tasks_sent_ids | done].
  - by rewrite digest_user_skips.
Qed.

Lemma digest_user_keeps_other pytz send utc_now uid
    (st : Db * list Delivery) user :
  NoDup (id <$> tasks st.1) → user_id user ≠ uid →
  get_unsent_tasks uid (digest_user pytz send utc_now st user).1
  = get_unsent_tasks uid st.1.
Proof.
  intros Hnd Hne.
  by destruct (digest_user_keeps_unsent pytz send utc_now uid st user Hnd).
Qed.

(** The log after one step: the old log, or the old log followed by one
    call for the user handled, made with the digest of that user's unsent
    items. *)
Lemma digest_user_log pytz send utc_now (st : Db * list Delivery) user :
  (digest_user pytz send utc_now st user).2 = st.2
  ∨ (user_time_str pytz utc_now user = Some (digest_time user)
     ∧ get_unsent_tasks (user_id user) st.1 ≠ []
     ∧ (digest_user pytz send utc_now st user).2
       = st.2 ++ [mkDelivery (user_id user)
                    (digest_body (get_unsent_tasks (user_id user) st.1))
                    (send (user_id user)
                       (digest_body (get_unsent_tasks (user_id user) st.1)))]).
Proof.
  destruct (digest_user_dec pytz utc_now st user) as [[Hm Hn]|Hskip].
  - right. split; [done|]. split; [done|].
    rewrite digest_user_fires by done.
    by destruct (send (user_id user) _).
  - left. by rewrite digest_user_skips.
Qed.

(** The messages of a sweep over the users [l], started in a state whose
    log mentions none of them: the recipients are distinct, and each message
    is the digest of the unsent items its recipient had in [db]. *)
Lemma sweep_log_described pytz send utc_now db
    (described : Delivery → Prop) (l : list User) (st : Db * list Delivery) :
  (∀ user, user ∈ users db →
     user_time_str pytz utc_now user = Some (digest_time user) →
     get_unsent_tasks (user_id user) db ≠ [] →
     described
       (mkDelivery (user_id user)
          (digest_body (get_unsent_tasks (user_id user) db))
          (send (user_id user)
             (digest_body (get_unsent_tasks (user_id user) db))))) →
  NoDup (user_id <$> l) →
  (∀ user, user ∈ l → user ∈ users db) →
  NoDup (id <$> tasks st.1) →
  (∀ user, user ∈ l →
     get_unsent_tasks (user_id user) st.1 = get_unsent_tasks (user_id user) db) →
  (∀ d, d ∈ st.2 → chat_id d ∉ user_id <$> l) →
  NoDup (chat_id <$> st.2) → Forall described st.2 →
  NoDup (chat_id <$> (fold_left (digest_user pytz send utc_now) l st).2)
  ∧ Forall described (fold_left (digest_user pytz send utc_now) l st).2.
Proof.
  intros Hdesc. revert st.
  induction l as [|u l IH]; intros st Hl Hin Hids Hsame Hfresh Hnd Hall;
    [done|].
  rewrite fmap_cons in Hl. apply NoDup_cons in Hl as [Hu Hl].
  assert (Hfresh_u : ∀ d, d ∈ st.2 → chat_id d ≠ user_id u).
  { intros d Hd Heq. apply (Hfresh d Hd). rewrite fmap_cons, Heq. left. }
  simpl. apply IH; clear IH.
  - exact Hl.
  - intros user Huser. apply Hin. by right.
  - by rewrite digest_user_ids.
  - intros user Huser. rewrite digest_user_keeps_other; [|done|].
    + apply Hsame. by right.
    + intros Heq. apply Hu. rewrite Heq. by apply list_elem_of_fmap_2.
  - intros d Hd.
    destruct (digest_user_log pytz send utc_now st u) as [Hlog|(_ & _ & Hlog)];
      rewrite Hlog in Hd.
    + intros Hd'. apply (Hfresh d Hd). rewrite fmap_cons. by right.
    + apply elem_of_app in Hd as [Hd|Hd].
      * intros Hd'. apply (Hfresh d Hd). rewrite fmap_cons. by right.
      * apply list_elem_of_singleton in Hd as ->. exact Hu.
  - destruct (digest_user_log pytz send utc_now st u) as [Hlog|(_ & _ & Hlog)];
      rewrite Hlog; [done|].
    rewrite fmap_app. apply NoDup_app. split; [done|].
    split; [|apply NoDup_singleton].
    intros c Hc ->%list_elem_of_singleton.
    apply list_elem_of_fmap in Hc as (d & Heq & Hd).
    by apply (Hfresh_u d Hd).
  - destruct (digest_user_log pytz send utc_now st u) as [Hlog|(Hm & Hn & Hlog)];
      rewrite Hlog; [done|].
    apply Forall_app. split; [done|]. apply Forall_singleton.
    rewrite (Hsame u) in * by left.
    apply Hdesc; [apply Hin; left | done..].
Qed.



(** * Further properties of the settings commands *)

(** X18: a token command with a non-empty first argument, for an existing
    account, stores that argument in its one column and answers "saved": the
    account reads back as before with the column set, and every other
    account reads as before. Without an argument the command answers with
    its usage line and changes nothing. *)
Theorem token_commands_store_first_argument uid token rest db r :
  select_user uid db = Some r → Py.truthy token = true →
  let todoist := Commands.set_todoist uid (token :: rest) db in
  let notion := Commands.set_notion uid (token :: rest) db in
  let page := Commands.set_notion_page uid (token :: rest) db in
  (todoist.2 = [Commands.TodoistSaved]
   ∧ select_user uid todoist.1 = Some (assign r (set_todoist_token token))
   ∧ ∀ v, v ≠ uid → select_user v todoist.1 = select_user v db)
  ∧ (notion.2 = [Commands.NotionSaved]
     ∧ select_user uid notion.1 = Some (assign r (set_notion_token token))
     ∧ ∀ v, v ≠ uid → select_user v notion.1 = select_user v db)
  ∧ (page.2 = [Commands.NotionPageSaved]
     ∧ select_user uid page.1 = Some (assign r (set_notion_page_id token))
     ∧ ∀ v, v ≠ uid → select_user v page.1 = select_user v db)
  ∧ Commands.set_todoist uid [] db = (db, [Commands.TodoistUsage])
  ∧ Commands.set_notion uid [] db = (db, [Commands.NotionUsage])
  ∧ Commands.set_notion_page uid [] db = (db, [Commands.NotionPageUsage]).
Proof.
  intros Hr Htoken todoist notion page.
  assert (Hcol : ∀ column usage saved,
    (∀ r0, user_id (assign r0 (column token)) = user_id r0) →
    let out := Commands.set_column column usage saved uid (token :: rest) db in
    out.2 = [saved]
    ∧ select_user uid out.1 = Some (assign r (column token))
    ∧ ∀ v, v ≠ uid → select_user v out.1 = select_user v db).
  { intros column usage saved Hid out. unfold out, Commands.set_column.
    cbn [head]. rewrite Htoken. cbn [negb update_user fst snd].
    split; [done|]. split.
    - unfold select_user; cbn [users fold_left].
      by apply (select_user_update uid (λ r0, assign r0 (column token))).
    - intros v Hv. unfold select_user; cbn [users fold_left].
      by apply (select_user_update_other uid v
                  (λ r0, assign r0 (column token))). }
  split; [by apply Hcol|]. split; [by apply Hcol|]. split; [by apply Hcol|].
  done.
Qed.

Lemma token_commands_store_first_argument_witness :
  select_user "1003" (Commands.set_todoist "1003" ["tok_1"] Samples.db1).1
  = Some (mkUser "1003" None 4 "free" (Some "tok_1") None None "18:00" "UTC").
Proof.
  destruct (token_commands_store_first_argument "1003" "tok_1" []
              Samples.db1 Samples.carol eq_refl eq_refl)
    as ((_ & Hstored & _) & _).
  exact Hstored.
Defined.

(** X19: the settings commands do not create the account. For a user id
    that is not in the store, each of them, given a value it accepts,
    answers that the value was saved and leaves the store exactly as it was:
    the setting is lost. *)
Theorem settings_of_unknown_account_are_lost pytz uid value db :
  select_user uid db = None → Py.truthy value = true →
  Commands.set_todoist uid [value] db = (db, [Commands.TodoistSaved])
  ∧ Commands.set_notion uid [value] db = (db, [Commands.NotionSaved])
  ∧ Commands.set_notion_page uid [value] db = (db, [Commands.NotionPageSaved])
  ∧ (is_Some (Datetime.strptime_HM value) →
     set_digest uid [value] db = (db, [DigestSet value]))
  ∧ (is_Some (pytz value) →
     Bot.set_timezone pytz uid [value] db = (db, [TimezoneSet value])).
Proof.
  intros Habs Hvalue.
  assert (Hnoop : ∀ a, update_user uid [a] db = Returned db).
  { intros a. unfold update_user. f_equal.
    rewrite update_absent_rows by (by apply select_user_None).
    by destruct db. }
  unfold Commands.set_todoist, Commands.set_notion, Commands.set_notion_page,
    Commands.set_column, set_digest, Bot.set_timezone.
  cbn [head]. rewrite Hvalue. cbn [negb]. rewrite !Hnoop.
  repeat split; try done.
  - intros [hm Hhm]. by rewrite Hhm.
  - intros [tz Htz]. by rewrite Htz.
Qed.

Lemma settings_of_unknown_account_are_lost_witness :
  set_digest "9999" ["18:30"] Samples.db1
  = (Samples.db1, [DigestSet "18:30"]).
Proof.
  destruct (settings_of_unknown_account_are_lost Samples.iana_excerpt "9999"
              "18:30" Samples.db1 eq_refl eq_refl) as (_ & _ & _ & Hdigest & _).
  apply Hdigest. by eexists.
Defined.

Lemma in_range_bounds lo hi c :
  Datetime.in_range lo hi c = true →
  Z.of_nat lo - 48 ≤ Datetime.digit_val c ≤ Z.of_nat hi - 48.
Proof.
  unfold Datetime.in_range, Datetime.digit_val.
  intros [H1 H2]%andb_true_iff.
  apply Nat.leb_le in H1, H2. lia.
Qed.

Lemma is_digit_bounds c :
  Datetime.is_digit c = true → 0 ≤ Datetime.digit_val c ≤ 9.
Proof. intros H. by apply (in_range_bounds 48 57 c) in H. Qed.

Lemma hour_alternatives_range s v r :
  (v, r) ∈ Datetime.hour_alternatives s →
  0 ≤ v ≤ 23 ∧ (String.length r < String.length s ≤ String.length r + 2)%nat.
Proof.
  unfold Datetime.hour_alternatives.
  destruct s as [|a [|b s]].
  - by intros ?%elem_of_nil.
  - destruct (Datetime.is_digit a) eqn:Ea; [|by intros ?%elem_of_nil].
    intros [= -> ->]%list_elem_of_singleton.
    apply is_digit_bounds in Ea. simpl. lia.
  - rewrite !elem_of_app. intros [H|[H|H]].
    + destruct (Ascii.eqb a "2" && Datetime.in_range 48 51 b) eqn:E;
        [|by apply elem_of_nil in H].
      apply list_elem_of_singleton in H as [= -> ->].
      apply andb_true_iff in E as [_ E]. apply in_range_bounds in E.
      simpl in *. lia.
    + destruct (Datetime.in_range 48 49 a && Datetime.is_digit b) eqn:E;
        [|by apply elem_of_nil in H].
      apply list_elem_of_singleton in H as [= -> ->].
      apply andb_true_iff in E as [Ea Eb].
      apply in_range_bounds in Ea. apply is_digit_bounds in Eb.
      simpl in *. lia.
    + destruct (Datetime.is_digit a) eqn:Ea; [|by apply elem_of_nil in H].
      apply list_elem_of_singleton in H as [= -> ->].
      apply is_digit_bounds in Ea. simpl. lia.
Qed.

Lemma minute_alternatives_range s v r :
  (v, r) ∈ Datetime.minute_alternatives s →
  0 ≤ v ≤ 59 ∧ (String.length r < String.length s ≤ String.length r + 2)%nat.
Proof.
  unfold Datetime.minute_alternatives.
  destruct s as [|a [|b s]].
  - by intros ?%elem_of_nil.
  - destruct (Datetime.is_digit a) eqn:Ea; [|by intros ?%elem_of_nil].
    intros [= -> ->]%list_elem_of_singleton.
    apply is_digit_bounds in Ea. simpl. lia.
  - rewrite !elem_of_app. intros [H|H].
    + destruct (Datetime.in_range 48 53 a && Datetime.is_digit b) eqn:E;
        [|by apply elem_of_nil in H].
      apply list_elem_of_singleton in H as [= -> ->].
      apply andb_true_iff in E as [Ea Eb].
      apply in_range_bounds in Ea. apply is_digit_bounds in Eb.
      simpl in *. lia.
    + destruct (Datetime.is_digit a) eqn:Ea; [|by apply elem_of_nil in H].
      apply list_elem_of_singleton in H as [= -> ->].
      apply is_digit_bounds in Ea. simpl. lia.
Qed.



Lemma strptime_padded h m :
  0 ≤ h < 24 → 0 ≤ m < 60 →
  Datetime.strptime_HM (Py.zfill 2 h ++ ":" ++ Py.zfill 2 m)%string
  = Some (h, m).
Proof.
  intros Hh Hm.
  assert (Hall :
    forallb (λ i, forallb (λ j,
      match Datetime.strptime_HM
              (Py.zfill 2 (Z.of_nat i) ++ ":" ++ Py.zfill 2 (Z.of_nat j))%string
      with
      | Some (h', m') => (h' =? Z.of_nat i) && (m' =? Z.of_nat j)
      | None => false
      end) (seq 0 60)) (seq 0 24) = true) by (vm_compute; reflexivity).
  rewrite forallb_forall in Hall.
  specialize (Hall (Z.to_nat h)). rewrite forallb_forall in Hall.
  specialize (Hall ltac:(apply in_seq; lia) (Z.to_nat m)
                   ltac:(apply in_seq; lia)).
  rewrite !Z2Nat.id in Hall by lia.
  destruct (Datetime.strptime_HM _) as [[h' m']|]; [|done].
  apply andb_true_iff in Hall as [H1 H2].
  apply Z.eqb_eq in H1, H2. by subst.
Qed.

(** X21: every clock reading the sweep can produce is a digest time that
    [set_digest] accepts, and it reads back as the same hour and minute:
    [strptime] inverts [strftime] on "%H:%M". *)
Theorem strptime_inverts_strftime wall :
  Datetime.strptime_HM (Datetime.strftime_HM wall)
  = Some (wall mod 86400 / 3600, wall mod 86400 mod 3600 / 60)
  ∧ ∀ uid db,
      (set_digest uid [Datetime.strftime_HM wall] db).2
      = [DigestSet (Datetime.strftime_HM wall)].
Proof.
  assert (H : Datetime.strptime_HM (Datetime.strftime_HM wall)
              = Some (wall mod 86400 / 3600, wall mod 86400 mod 3600 / 60)).
  { unfold Datetime.strftime_HM. cbv zeta. apply strptime_padded.
    - pose proof (Z.mod_pos_bound wall 86400 eq_refl).
      split; [apply Z.div_pos; lia | apply Z.div_lt_upper_bound; lia].
    - pose proof (Z.mod_pos_bound (wall mod 86400) 3600 eq_refl).
      split; [apply Z.div_pos; lia | apply Z.div_lt_upper_bound; lia]. }
  split; [exact H|].
  intros uid db. unfold set_digest. cbn [head]. by rewrite H.
Qed.

Lemma digit_of_digit_val c :
  Datetime.is_digit c = true → Py.digit (Datetime.digit_val c) = c.
Proof.
  unfold Datetime.is_digit, Py.digit, Datetime.digit_val.
  intros [H1 H2]%andb_true_iff. apply Nat.leb_le in H1, H2.
  replace (48 + Z.to_nat (Z.of_nat (nat_of_ascii c) - 48))%nat
    with (nat_of_ascii c) by lia.
  apply ascii_nat_embedding.
Qed.

Lemma zfill_two_digits a b :
  0 ≤ a ≤ 9 → 0 ≤ b ≤ 9 →
  Py.zfill 2 (10 * a + b) = String (Py.digit a) (String (Py.digit b) "").
Proof.
  intros Ha Hb. simpl.
  replace ((10 * a + b) / 10 mod 10) with a by (Z.div_mod_to_equations; lia).
  replace ((10 * a + b) mod 10) with b by (Z.div_mod_to_equations; lia).
  done.
Qed.

Lemma in_range_is_digit lo hi c :
  (48 ≤ lo)%nat → (hi ≤ 57)%nat →
  Datetime.in_range lo hi c = true → Datetime.is_digit c = true.
Proof.
  unfold Datetime.in_range, Datetime.is_digit.
  intros Hlo Hhi [H1 H2]%andb_true_iff. apply Nat.leb_le in H1, H2.
  apply andb_true_iff. split; apply Nat.leb_le; lia.
Qed.

(** An alternative that consumed two characters read a zero-padded
    number. *)
Lemma hour_alternatives_two s v r :
  (v, r) ∈ Datetime.hour_alternatives s →
  String.length s = (String.length r + 2)%nat →
  s = (Py.zfill 2 v ++ r)%string.
Proof.
  unfold Datetime.hour_alternatives.
  destruct s as [|a [|b s]].
  - by intros ?%elem_of_nil.
  - destruct (Datetime.is_digit a); [|by intros ?%elem_of_nil].
    intros [= -> ->]%list_elem_of_singleton. simpl. lia.
  - rewrite !elem_of_app. intros [H|[H|H]] Hlen.
    + destruct (Ascii.eqb a "2" && Datetime.in_range 48 51 b) eqn:E;
        [|by apply elem_of_nil in H].
      apply list_elem_of_singleton in H as [= -> ->].
      apply andb_true_iff in E as [Ea Eb]. apply Ascii.eqb_eq in Ea as ->.
      pose proof (in_range_bounds _ _ _ Eb) as Hb.
      apply (in_range_is_digit 48 51) in Eb; [|lia..].
      replace (20 + Datetime.digit_val b) with (10 * 2 + Datetime.digit_val b)
        by lia.
      rewrite zfill_two_digits by (simpl in Hb; lia).
      by rewrite digit_of_digit_val.
    + destruct (Datetime.in_range 48 49 a && Datetime.is_digit b) eqn:E;
        [|by apply elem_of_nil in H].
      apply list_elem_of_singleton in H as [= -> ->].
      apply andb_true_iff in E as [Ea Eb].
      pose proof (in_range_bounds _ _ _ Ea) as Ha.
      pose proof (is_digit_bounds _ Eb) as Hb.
      apply (in_range_is_digit 48 49) in Ea; [|lia..].
      rewrite zfill_two_digits by (simpl in Ha; lia).
      by rewrite !digit_of_digit_val.
    + destruct (Datetime.is_digit a); [|by apply elem_of_nil in H].
      apply list_elem_of_singleton in H as [= -> ->]. simpl in Hlen. lia.
Qed.

Lemma minute_alternatives_two s v r :
  (v, r) ∈ Datetime.minute_alternatives s →
  String.length s = (String.length r + 2)%nat →
  s = (Py.zfill 2 v ++ r)%string.
Proof.
  unfold Datetime.minute_alternatives.
  destruct s as [|a [|b s]].
  - by intros ?%elem_of_nil.
  - destruct (Datetime.is_digit a); [|by intros ?%elem_of_nil].
    intros [= -> ->]%list_elem_of_singleton. simpl. lia.
  - rewrite !elem_of_app. intros [H|H] Hlen.
    + destruct (Datetime.in_range 48 53 a && Datetime.is_digit b) eqn:E;
        [|by apply elem_of_nil in H].
      apply list_elem_of_singleton in H as [= -> ->].
      apply andb_true_iff in E as [Ea Eb].
      pose proof (in_range_bounds _ _ _ Ea) as Ha.
      pose proof (is_digit_bounds _ Eb) as Hb.
      apply (in_range_is_digit 48 53) in Ea; [|lia..].
      rewrite zfill_two_digits by (simpl in Ha; lia).
      by rewrite !digit_of_digit_val.
    + destruct (Datetime.is_digit a); [|by apply elem_of_nil in H].
      apply list_elem_of_singleton in H as [= -> ->]. simpl in Hlen. lia.
Qed.



(** * The task lists sent to Todoist and Notion *)

Import Sync.

Lemma after_app p l r : after p l = Some r → l = p ++ r.
Proof.
  revert l. induction p as [|c p IH]; intros [|d l]; simpl; try done.
  - by intros [= ->].
  - by intros [= ->].
  - destruct (Ascii.eqb c d) eqn:E; [|done].
    apply Ascii.eqb_eq in E as ->. intros H. by rewrite (IH l H).
Qed.

Lemma after_app_r p l r y : after p l = Some r → after p (l ++ y) = Some (r ++ y).
Proof.
  revert l. induction p as [|c p IH]; intros [|d l]; simpl; try done.
  - by intros [= <-].
  - by intros [= <-].
  - destruct (Ascii.eqb c d); [apply IH | done].
Qed.

Lemma drop_one_Some seqs l r :
  drop_one seqs l = Some r → ∃ seq, seq ∈ seqs ∧ l = seq ++ r.
Proof.
  unfold drop_one. intros H. apply head_Some_elem_of in H.
  apply list_elem_of_omap in H as (seq & Hin & Hafter).
  exists seq. split; [done|]. by apply after_app.
Qed.

Lemma drop_one_None_prefix seqs x y :
  drop_one seqs (x ++ y) = None → drop_one seqs x = None.
Proof.
  unfold drop_one. intros H.
  destruct (head (omap (λ seq, after seq x) seqs)) as [r|] eqn:E; [|done].
  exfalso. apply head_Some_elem_of in E.
  apply list_elem_of_omap in E as (seq & Hin & Hafter).
  apply head_None in H.
  assert (Hy : r ++ y ∈ omap (λ seq, after seq (x ++ y)) seqs).
  { apply list_elem_of_omap. exists seq. split; [done|].
    by apply after_app_r. }
  rewrite H in Hy. by apply elem_of_nil in Hy.
Qed.

Lemma drop_leading_suffix seqs n l :
  ∃ d, l = d ++ drop_leading seqs n l.
Proof.
  revert l. induction n as [|n IH]; intros l; simpl; [by exists []|].
  destruct (drop_one seqs l) as [r|] eqn:E; [|by exists []].
  apply drop_one_Some in E as (seq & _ & ->).
  destruct (IH r) as [d Hd]. exists (seq ++ d).
  by rewrite <- app_assoc, <- Hd.
Qed.

(** With enough fuel nothing more can be removed from the result. *)
Lemma drop_leading_done seqs n l :
  Forall (λ seq, seq ≠ []) seqs → (length l ≤ n)%nat →
  drop_one seqs (drop_leading seqs n l) = None.
Proof.
  intros Hne. revert l. induction n as [|n IH]; intros l Hlen; simpl.
  - destruct l; [|simpl in Hlen; lia].
    destruct (drop_one seqs []) as [r|] eqn:E; [|done].
    apply drop_one_Some in E as (seq & Hin & Heq).
    symmetry in Heq. apply app_eq_nil in Heq as [-> _].
    rewrite Forall_forall in Hne. by destruct (Hne [] Hin).
  - destruct (drop_one seqs l) as [r|] eqn:E; [|done].
    apply IH. apply drop_one_Some in E as (seq & Hin & ->).
    rewrite Forall_forall in Hne. specialize (Hne seq Hin).
    rewrite length_app in Hlen. destruct seq; [done|]. simpl in Hlen. lia.
Qed.

Lemma drop_leading_None seqs n l :
  drop_one seqs l = None → drop_leading seqs n l = l.
Proof. intros H. destruct n; simpl; [done|]. by rewrite H. Qed.

Lemma whitespace_nonempty :
  Forall (λ seq, seq ≠ []) whitespace
  ∧ Forall (λ seq, seq ≠ []) (reverse <$> whitespace).
Proof. split; repeat constructor; discriminate. Qed.

(** [lstrip] removes a prefix and [rstrip] a suffix. *)
Lemma lstrip_suffix l : ∃ d, l = d ++ lstrip l.
Proof. apply drop_leading_suffix. Qed.

Lemma rstrip_prefix l : ∃ d, l = rstrip l ++ d.
Proof.
  unfold rstrip.
  destruct (drop_leading_suffix (reverse <$> whitespace) (length l) (reverse l))
    as [d Hd].
  exists (reverse d). rewrite <- reverse_app, <- Hd. by rewrite reverse_involutive.
Qed.

(** The result of [strip] starts and ends with no whitespace. *)
Lemma strip_bytes_done l :
  drop_one whitespace (rstrip (lstrip l)) = None
  ∧ drop_one (reverse <$> whitespace) (reverse (rstrip (lstrip l))) = None.
Proof.
  destruct whitespace_nonempty as [Hl Hr]. split.
  - destruct (rstrip_prefix (lstrip l)) as [d Hd].
    apply (drop_one_None_prefix _ _ d). rewrite <- Hd.
    by apply drop_leading_done.
  - unfold rstrip. rewrite reverse_involutive.
    apply drop_leading_done; [done|]. by rewrite length_reverse.
Qed.

Lemma strip_idempotent s : strip (strip s) = strip s.
Proof.
  unfold strip. rewrite list_ascii_of_string_of_list_ascii.
  destruct (strip_bytes_done (list_ascii_of_string s)) as [Hl Hr].
  set (y := rstrip (lstrip (list_ascii_of_string s))) in *.
  assert (Hly : lstrip y = y) by (by apply drop_leading_None).
  rewrite Hly. unfold rstrip at 1.
  by rewrite drop_leading_None, reverse_involutive.
Qed.

Lemma strip_chars s c :
  c ∈ list_ascii_of_string (strip s) → c ∈ list_ascii_of_string s.
Proof.
  unfold strip. rewrite list_ascii_of_string_of_list_ascii.
  destruct (lstrip_suffix (list_ascii_of_string s)) as [d1 H1].
  destruct (rstrip_prefix (lstrip (list_ascii_of_string s))) as [d2 H2].
  intros Hc. rewrite H1, H2, !elem_of_app. tauto.
Qed.

Lemma remove_stars_chars s :
  "*"%char ∉ list_ascii_of_string (remove_stars s).
Proof.
  induction s as [|c s IH]; simpl; [apply not_elem_of_nil|].
  destruct (Ascii.eqb c "*") eqn:E; [done|]. simpl.
  apply Ascii.eqb_neq in E. rewrite elem_of_cons. intros [H|H]; [|done].
  by apply E.
Qed.

Lemma omap_length_le {A B} (f : A → option B) (l : list A) :
  (length (omap f l) ≤ length l)%nat.
Proof.
  induction l as [|x l IH]; csimpl; [done|].
  destruct (f x); csimpl; lia.
Qed.

Lemma todoist_line_clean line c :
  todoist_line line = Some c →
  strip c = c ∧ "*"%char ∉ list_ascii_of_string c.
Proof.
  unfold todoist_line.
  destruct (negb (Py.truthy (strip line))); [done|].
  destruct (negb _); [done|].
  intros [= <-]. split; [apply strip_idempotent|].
  intros H%strip_chars. by apply remove_stars_chars in H.
Qed.

(** X23: the subtasks sent to Todoist are clean: the content of each has no
    asterisk left and neither starts nor ends with whitespace (stripping it
    again changes nothing); there is at most one subtask per line of the
    text, and the to-do blocks of the Notion page are clean in the same
    way. *)
Theorem todoist_contents_are_clean text :
  Forall (λ c, strip c = c ∧ "*"%char ∉ list_ascii_of_string c)
         (todoist_contents text)
  ∧ (length (todoist_contents text) ≤ length (split_lines text))%nat
  ∧ Forall (λ b, match b with
                 | to_do c _ => strip c = c ∧ "*"%char ∉ list_ascii_of_string c
                 | paragraph line => strip line = line ∧ line ≠ ""%string
                 end)
           (notion_blocks text).
Proof.
  split; [|split].
  - apply Forall_forall. intros c Hc.
    apply list_elem_of_omap in Hc as (line & _ & Hline).
    by apply (todoist_line_clean line).
  - apply omap_length_le.
  - apply Forall_forall. intros b Hb.
    apply list_elem_of_omap in Hb as (line & _ & Hline).
    revert Hline. unfold notion_line.
    destruct (Py.truthy (strip line)) eqn:Ht; [|done]. simpl.
    assert (Hclean : ∀ x, strip (strip (remove_stars x)) = strip (remove_stars x)
                          ∧ "*"%char ∉ list_ascii_of_string
                                        (strip (remove_stars x))).
    { intros x. split; [apply strip_idempotent|].
      intros H%strip_chars. by apply remove_stars_chars in H. }
    repeat (destruct (startswith _ _); [intros [= <-]; apply Hclean|]).
    intros [= <-]. split; [apply strip_idempotent|].
    intros Heq. by rewrite Heq in Ht.
Qed.

Lemma startswith_first a p l :
  startswith (String a p) l = true → startswith (String a "") l = true.
Proof.
  unfold startswith. destruct l as [|b l]; simpl; [done|].
  destruct (ascii_dec a b); [|done]. intros _. by destruct l.
Qed.

(** A line that Notion shows as a to-do is a line Todoist gets as a
    subtask, with the same content; a line Notion drops, Todoist drops. *)
Lemma notion_line_todoist_line line :
  match notion_line line with
  | Some (to_do c _) => todoist_line line = Some c
  | Some (paragraph _) => True
  | None => todoist_line line = None
  end.
Proof.
  unfold notion_line, todoist_line.
  destruct (Py.truthy (strip line)); simpl; [|done].
  destruct (startswith "- [ ] " (strip line)) eqn:E1.
  { by rewrite (startswith_first _ _ _ E1). }
  destruct (startswith "- [x] " (strip line)) eqn:E2.
  { by rewrite (startswith_first _ _ _ E2). }
  destruct (startswith "- " (strip line)) eqn:E3.
  { by rewrite (startswith_first _ _ _ E3). }
  destruct (startswith "* " (strip line)) eqn:E4.
  { rewrite (startswith_first _ _ _ E4). by rewrite orb_true_r. }
  done.
Qed.

Lemma notion_line_None line :
  notion_line line = None ↔ strip line = ""%string.
Proof.
  unfold notion_line. destruct (Py.truthy (strip line)) eqn:Ht; cbn [negb].
  - split.
    + by repeat (destruct (startswith _ _)).
    + intros H. by rewrite H in Ht.
  - split; [|done]. intros _. by destruct (strip line).
Qed.

(** X24: the two sinks agree on the list items. The contents of the to-do
    blocks of the Notion page are, in order, among the subtasks sent to
    Todoist (Todoist also takes the lines that start with "-" or "*"
    without a space after it, which Notion keeps as paragraphs); Notion gets
    one block for each line that is not blank, so never fewer blocks than
    Todoist gets subtasks. *)
Theorem notion_to_dos_are_todoist_subtasks text :
  sublist (omap (λ b, match b with
                      | to_do c _ => Some c
                      | paragraph _ => None
                      end) (notion_blocks text))
          (todoist_contents text)
  ∧ length (notion_blocks text)
    = length (filter (λ line, strip line ≠ ""%string) (split_lines text))
  ∧ (length (todoist_contents text) ≤ length (notion_blocks text))%nat.
Proof.
  unfold notion_blocks, todoist_contents.
  induction (split_lines text) as [|line lines (IH1 & IH2 & IH3)];
    [by repeat split|].
  pose proof (notion_line_todoist_line line) as Hline.
  pose proof (notion_line_None line) as Hblank.
  csimpl. rewrite filter_cons.
  destruct (notion_line line) as [[c chk|p]|] eqn:En; csimpl.
  - rewrite Hline. csimpl.
    rewrite decide_True by (intros H; by apply Hblank in H).
    split; [by apply sublist_skip|]. split; [simpl; by rewrite IH2 | simpl; lia].
  - rewrite decide_True by (intros H; by apply Hblank in H).
    destruct (todoist_line line); csimpl.
    + split; [by apply sublist_cons|]. split; [simpl; by rewrite IH2 | simpl; lia].
    + split; [done|]. split; [simpl; by rewrite IH2 | simpl; lia].
  - rewrite Hline. rewrite decide_False by (intros H; apply H; by apply Hblank).
    done.
Qed.

(** The requests [post_subtasks] makes: those made before, then the
    subtasks in order up to and including the first whose request raises;
    the result is [true] exactly when none raises. *)
Lemma post_subtasks_requests post parent contents sent :
  let subs := (λ c, mkTodoistTask c None (Some parent)) <$> contents in
  let out := post_subtasks post parent contents sent in
  ∃ k, out.2 = sent ++ take k subs
       ∧ (out.1 = true → k = length subs
                         ∧ Forall (λ r, post r ≠ Bot.Raises) subs)
       ∧ (out.1 = false → ∃ r, last out.2 = Some r ∧ post r = Bot.Raises).
Proof.
  revert sent. induction contents as [|c contents IH]; intros sent; simpl.
  - exists 0%nat. rewrite app_nil_r. repeat split; done.
  - destruct (post (mkTodoistTask c None (Some parent))) as [resp|] eqn:E.
    + destruct (IH (sent ++ [mkTodoistTask c None (Some parent)]))
        as (k & Hreq & Htrue & Hfalse).
      exists (S k). simpl. rewrite <- app_assoc in Hreq. split; [exact Hreq|].
      split; [|exact Hfalse].
      intros Hb. destruct (Htrue Hb) as [-> Hall]. split; [done|].
      apply Forall_cons. split; [by rewrite E | done].
    + exists 1%nat. simpl. rewrite take_0. split; [done|].
      split; [done|]. intros _. eexists. by rewrite last_snoc.
Qed.



(** ** Parsing a checklist *)

Lemma after_None_app_tail p x y :
  after p x = None →
  Forall (λ c, (128 ≤ nat_of_ascii c)%nat) p →
  Forall (λ c, (nat_of_ascii c < 128)%nat) y →
  after p (x ++ y) = None.
Proof.
  revert x. induction p as [|c p IH]; intros x Hx Hp Hy; [by destruct x|].
  apply Forall_cons in Hp as [Hc Hp].
  destruct x as [|d x]; simpl in *.
  - destruct y as [|e y]; [done|].
    apply Forall_cons in Hy as [He _].
    destruct (Ascii.eqb c e) eqn:E; [|done].
    apply Ascii.eqb_eq in E as ->. lia.
  - destruct (Ascii.eqb c d); [by apply IH | done].
Qed.

Lemma after_None_app p x y :
  after p x = None → x ≠ [] →
  length p = 1%nat ∨ Forall (λ c, (128 ≤ nat_of_ascii c)%nat) p →
  Forall (λ c, (nat_of_ascii c < 128)%nat) y →
  after p (x ++ y) = None.
Proof.
  intros Hx Hne [Hp|Hp] Hy; [|by apply after_None_app_tail].
  destruct p as [|c [|? ?]]; try done.
  destruct x as [|d x]; [done|]. simpl in *.
  by destruct (Ascii.eqb c d).
Qed.

Lemma drop_one_None seqs l :
  drop_one seqs l = None ↔ ∀ seq, seq ∈ seqs → after seq l = None.
Proof.
  unfold drop_one. rewrite head_None. split.
  - intros H seq Hin. destruct (after seq l) as [r|] eqn:E; [|done].
    assert (Hr : r ∈ omap (λ seq, after seq l) seqs)
      by (apply list_elem_of_omap; by exists seq).
    rewrite H in Hr. by apply elem_of_nil in Hr.
  - intros H. apply elem_of_nil_inv. intros r Hr.
    apply list_elem_of_omap in Hr as (seq & Hin & Hafter).
    by rewrite (H seq Hin) in Hafter.
Qed.

Lemma shape_check (seqs : list (list ascii)) :
  forallb (λ seq, Nat.eqb (length seq) 1
                  || forallb (λ c, Nat.leb 128 (nat_of_ascii c)) seq) seqs
  = true →
  Forall (λ seq, length seq = 1%nat
                 ∨ Forall (λ c, (128 ≤ nat_of_ascii c)%nat) seq) seqs.
Proof.
  intros H. rewrite forallb_forall in H. apply Forall_forall.
  intros seq Hin. apply list_elem_of_In in Hin. specialize (H seq Hin).
  apply orb_true_iff in H as [H|H].
  - left. by apply Nat.eqb_eq.
  - right. rewrite forallb_forall in H. apply Forall_forall.
    intros c Hc. apply list_elem_of_In in Hc. by apply Nat.leb_le, H.
Qed.

(** Every whitespace sequence is one ASCII byte, or has no ASCII byte. *)
Lemma whitespace_shape :
  Forall (λ seq, length seq = 1%nat
                 ∨ Forall (λ c, (128 ≤ nat_of_ascii c)%nat) seq) whitespace
  ∧ Forall (λ seq, length seq = 1%nat
                   ∨ Forall (λ c, (128 ≤ nat_of_ascii c)%nat) seq)
           (reverse <$> whitespace).
Proof. split; apply shape_check; vm_compute; reflexivity. Qed.

Lemma list_ascii_of_string_app (p x : string) :
  list_ascii_of_string (p ++ x)
  = list_ascii_of_string p ++ list_ascii_of_string x.
Proof. induction p as [|c p IH]; simpl; [done|]. by rewrite IH. Qed.

(** A string that is stripped stays so when ASCII text that does not start
    with whitespace is put before it. *)
Lemma strip_with_prefix (p x : string) :
  strip x = x → x ≠ ""%string →
  drop_one whitespace (list_ascii_of_string p) = None →
  p ≠ ""%string →
  Forall (λ c, (nat_of_ascii c < 128)%nat) (list_ascii_of_string p) →
  strip (p ++ x) = (p ++ x)%string.
Proof.
  intros Hx Hne Hp Hpne Hascii.
  assert (Hbx : rstrip (lstrip (list_ascii_of_string x))
                = list_ascii_of_string x).
  { unfold strip in Hx. apply (f_equal list_ascii_of_string) in Hx.
    by rewrite list_ascii_of_string_of_list_ascii in Hx. }
  destruct (strip_bytes_done (list_ascii_of_string x)) as [_ Hr].
  rewrite Hbx in Hr.
  destruct whitespace_shape as [Hshape Hrshape].
  rewrite Forall_forall in Hshape, Hrshape.
  unfold strip. rewrite list_ascii_of_string_app.
  set (bp := list_ascii_of_string p) in *.
  set (bx := list_ascii_of_string x) in *.
  assert (Hbxne : bx ≠ []) by (unfold bx; by destruct x).
  assert (Hbpne : bp ≠ []) by (unfold bp; by destruct p).
  assert (Hl : lstrip (bp ++ bx) = bp ++ bx).
  { apply drop_leading_None. apply drop_one_None. intros seq Hin.
    rewrite drop_one_None in Hp. specialize (Hp seq Hin).
    destruct bp as [|d bp']; [done|]. apply Forall_cons in Hascii as [Hd _].
    destruct (Hshape seq Hin) as [Hone|Hhigh].
    - destruct seq as [|c [|? ?]]; try done. simpl in *.
      by destruct (Ascii.eqb c d).
    - destruct seq as [|c seq]; [done|]. apply Forall_cons in Hhigh as [Hc _].
      simpl. destruct (Ascii.eqb c d) eqn:E; [|done].
      apply Ascii.eqb_eq in E as ->. lia. }
  rewrite Hl. unfold rstrip. rewrite reverse_app.
  rewrite drop_leading_None.
  - rewrite <- reverse_app, reverse_involutive. unfold bp, bx.
    by rewrite <- list_ascii_of_string_app, string_of_list_ascii_of_string.
  - apply drop_one_None. intros seq Hin.
    rewrite drop_one_None in Hr.
    apply after_None_app.
    + by apply Hr.
    + intros H. apply Hbxne. by rewrite <- (reverse_involutive bx), H.
    + by apply Hrshape.
    + by apply Forall_reverse.
Qed.

Lemma split_lines_line (line rest : string) :
  ascii_of_nat 10 ∉ list_ascii_of_string line →
  split_lines (line ++ Py.LF ++ rest) = line :: split_lines rest.
Proof.
  induction line as [|c line IH]; intros Hlf.
  - simpl. done.
  - simpl in Hlf. apply not_elem_of_cons in Hlf as [Hc Hlf].
    change (String c line ++ Py.LF ++ rest)%string
      with (String c (line ++ Py.LF ++ rest)).
    cbn [split_lines]. rewrite (IH Hlf).
    destruct (Ascii.eqb c (ascii_of_nat 10)) eqn:E; [|done].
    apply Ascii.eqb_eq in E. by destruct Hc.
Qed.

Lemma checklist_line item :
  strip item = item → item ≠ ""%string →
  todoist_line ("- [ ] " ++ item) = Some (strip (remove_stars item))
  ∧ notion_line ("- [ ] " ++ item)
    = Some (to_do (strip (remove_stars item)) false).
Proof.
  intros Hitem Hne.
  assert (Hstrip : strip ("- [ ] " ++ item) = ("- [ ] " ++ item)%string).
  { apply strip_with_prefix; [done | done | | done |].
    - vm_compute. reflexivity.
    - apply Forall_forall. intros c Hc. cbn [list_ascii_of_string] in Hc.
      rewrite !elem_of_cons, elem_of_nil in Hc.
      destruct Hc as [->|[->|[->|[->|[->|[->|[]]]]]]]; vm_compute; lia. }
  assert (H1 : Py.truthy ("- [ ] " ++ item)%string = true) by reflexivity.
  assert (H2 : startswith "-" ("- [ ] " ++ item) = true)
    by (vm_compute; reflexivity).
  assert (H3 : startswith "- [ ] " ("- [ ] " ++ item) = true).
  { unfold startswith. cbn [append String.prefix].
    repeat (destruct (ascii_dec _ _); [|done]). by destruct item. }
  assert (H4 : drop_chars 6 ("- [ ] " ++ item) = item) by reflexivity.
  unfold todoist_line, notion_line. rewrite Hstrip, H1, H2, H3, H4.
  split; reflexivity.
Qed.

(** X26: a checklist is read back item by item. For items that are not
    empty, have no whitespace at either end and contain no line feed, the
    Markdown checklist of the items yields exactly one Todoist subtask and
    one unchecked Notion to-do per item, in order, each with the item's text
    without its asterisks; items without asterisks come back unchanged. *)
Theorem checklist_is_read_back items :
  Forall (λ item, strip item = item ∧ item ≠ ""%string
                  ∧ ascii_of_nat 10 ∉ list_ascii_of_string item) items →
  todoist_contents (Markdown.checklist items)
  = (λ item, strip (remove_stars item)) <$> items
  ∧ notion_blocks (Markdown.checklist items)
    = (λ item, to_do (strip (remove_stars item)) false) <$> items
  ∧ (Forall (λ item, "*"%char ∉ list_ascii_of_string item) items →
     todoist_contents (Markdown.checklist items) = items).
Proof.
  intros Hitems.
  assert (H : todoist_contents (Markdown.checklist items)
              = (λ item, strip (remove_stars item)) <$> items
              ∧ notion_blocks (Markdown.checklist items)
                = (λ item, to_do (strip (remove_stars item)) false) <$> items).
  { unfold todoist_contents, notion_blocks.
    induction Hitems as [|item items (Hs & Hne & Hlf) _ [IH1 IH2]];
      [done|].
    cbn [Markdown.checklist fold_right].
    fold (Markdown.checklist items).
    replace ("- [ ] " ++ item ++ Py.LF ++ Markdown.checklist items)%string
      with (("- [ ] " ++ item) ++ Py.LF ++ Markdown.checklist items)%string
      by done.
    rewrite split_lines_line.
    2:{ rewrite list_ascii_of_string_app, elem_of_app. intros [H|H]; [|done].
        cbn [list_ascii_of_string] in H.
        rewrite !elem_of_cons, elem_of_nil in H.
        destruct H as [H|[H|[H|[H|[H|[H|[]]]]]]];
          vm_compute in H; discriminate H. }
    destruct (checklist_line item Hs Hne) as [Ht Hn].
    csimpl. rewrite Ht, Hn. csimpl. by rewrite IH1, IH2. }
  destruct H as [H1 H2]. split; [exact H1|]. split; [exact H2|].
  intros Hstars. rewrite H1. rewrite <- (list_fmap_id items) at 2.
  apply list_fmap_ext. intros i item Hi.
  rewrite Forall_forall in Hitems, Hstars.
  apply list_elem_of_lookup_2 in Hi.
  destruct (Hitems item Hi) as (Hs & _). specialize (Hstars item Hi).
  assert (Hrm : remove_stars item = item).
  { clear -Hstars. induction item as [|c item IH]; simpl in *; [done|].
    apply not_elem_of_cons in Hstars as [Hc Hstars].
    destruct (Ascii.eqb c "*") eqn:E.
    - apply Ascii.eqb_eq in E. by destruct Hc.
    - by rewrite IH. }
  by rewrite Hrm.
Qed.

Lemma checklist_is_read_back_witness :
  todoist_contents (Markdown.checklist ["buy milk"; "call Ann"]%string)
  = ["buy milk"; "call Ann"]%string.
Proof.
  assert (Hitems :
    Forall (λ item, strip item = item ∧ item ≠ ""%string
                    ∧ ascii_of_nat 10 ∉ list_ascii_of_string item)
           ["buy milk"; "call Ann"]%string).
  { repeat (apply Forall_cons; split; [|]); [| |apply Forall_nil_2].
    all: split; [vm_compute; reflexivity|]; split; [discriminate|].
    all: apply (bool_decide_unpack _); vm_compute; exact I. }
  apply (checklist_is_read_back _ Hitems).
  repeat (apply Forall_cons; split; [|]); [| |apply Forall_nil_2].
  all: apply (bool_decide_unpack _); vm_compute; exact I.
Defined.
